(** * Circle regions: a shallow embedding of [regions/shapes/circle.py]

    The two classes of the module, [CirclePixelRegion] and
    [CircleSkyRegion], are embedded as records with their methods as
    computations over a Python object store.  The calls into astropy
    and into [regions.utils.wcs_helpers] are the operations of the class
    [Collaborators]; the numbers that pass between them are read as real
    numbers.  The two methods that compute on the doubles of a circle
    itself, [__contains__] and [area], are embedded on IEEE 754 doubles
    in [Float64]. *)

From Stdlib Require Import Reals Lra Floats.
From stdpp Require Import gmap strings.

Local Open Scope string_scope.

(** ** Python values and the object store *)

Module Py.

Definition addr := nat.

(** The values that reach the untyped parameters of the module
    ([meta], [visual], [mode], [tolerance]).  Dicts and lists are
    objects of the store, held by reference.  Objects of other classes
    are not among them: neither one whose truth test raises, as a numpy
    array, nor a mapping that is not a dict. *)
Inductive pyval :=
| PyNone
| PyBool (b : bool)
| PyInt (z : Z)
| PyFloat (x : R)
| PyStr (s : string)
| PyRef (a : addr).

Inductive pyobj :=
| ODict (d : gmap string pyval)
| OList (l : list pyval).

Abbreviation heap := (gmap addr pyobj).

(** Exceptions.  [NotImplementedError] and [UnboundLocalError] are the
    ones the module itself raises; an exception that escapes from a
    collaborator call passes through unhandled and is carried by
    [Propagated] with the name of its class. *)
Inductive exn :=
| NotImplementedError
| UnboundLocalError (var : string)
| Propagated (cls : string).

Inductive result (A : Type) :=
| Ok (a : A)
| Raise (e : exn).
Arguments Ok {A} a.
Arguments Raise {A} e.

(** Outcome of a call into a collaborator. *)
Inductive ext (A : Type) :=
| Ret (a : A)
| Throw (cls : string).
Arguments Ret {A} a.
Arguments Throw {A} cls.

(** Computations: the store is threaded, an exception aborts. *)
Definition M (A : Type) : Type := heap -> result (A * heap).

Definition ret {A} (a : A) : M A := fun h => Ok (a, h).

Definition bind {A B} (m : M A) (k : A -> M B) : M B :=
  fun h => match m h with
           | Ok (a, h') => k a h'
           | Raise e => Raise e
           end.

Definition raise {A} (e : exn) : M A := fun _ => Raise e.

Definition call {A} (r : ext A) : M A :=
  fun h => match r with
           | Ret a => Ok (a, h)
           | Throw cls => Raise (Propagated cls)
           end.

(** Python truth value: [None], [False], zero, the empty string and
    empty containers are false. *)
Definition truthy (h : heap) (v : pyval) : bool :=
  match v with
  | PyNone => false
  | PyBool b => b
  | PyInt z => negb (z =? 0)%Z
  | PyFloat x => if Req_dec_T x 0 then false else true
  | PyStr s => negb (String.eqb s "")
  | PyRef a =>
      match h !! a with
      | Some (ODict d) => negb (size d =? 0)%nat
      | Some (OList l) => negb (length l =? 0)%nat
      | None => true
      end
  end.

(** The display [{}]: a new dict object at an address not yet in use. *)
Definition new_dict : M pyval :=
  fun h => let a := fresh (dom h) in Ok (PyRef a, <[a := ODict ∅]> h).

(** [v or rhs]: [v] itself when it is true, otherwise [rhs] is evaluated. *)
Definition or_else (v : pyval) (rhs : M pyval) : M pyval :=
  fun h => if truthy h v then Ok (v, h) else rhs h.

(** [v != s] for a string literal [s]. *)
Definition ne_str (v : pyval) (s : string) : bool :=
  match v with
  | PyStr s' => negb (String.eqb s' s)
  | _ => true
  end.

(** [v is not None]. *)
Definition is_not_None (v : pyval) : bool :=
  match v with
  | PyNone => false
  | _ => true
  end.

(** A keyword parameter with a default: [None] stands for "omitted". *)
Definition arg (dflt : pyval) (given : option pyval) : pyval :=
  default dflt given.

(** Reading a local variable that only some paths assign. *)
Definition local {A} (var : string) (slot : option A) : M A :=
  match slot with
  | Some a => ret a
  | None => raise (UnboundLocalError var)
  end.

Definition is_dict (h : heap) (v : pyval) : Prop :=
  exists a d, v = PyRef a /\ h !! a = Some (ODict d).

Definition is_empty_dict (h : heap) (v : pyval) : Prop :=
  exists a, v = PyRef a /\ h !! a = Some (ODict ∅).

End Py.

Import Py.

Declare Scope py_scope.
Delimit Scope py_scope with py.
Notation "'let*' x ':=' m 'in' k" := (bind m (fun x => k))
  (at level 10, x pattern, m at level 100, k at level 200) : py_scope.
Local Open Scope py_scope.
Local Open Scope R_scope.

(** ** Collaborators *)

Module PixCoord.
(** [regions.core.pixcoord.PixCoord], a point of the pixel frame. *)
Record t := mk { x : R; y : R }.
End PixCoord.

Module Quantity.
(** [astropy.units.Quantity]: a number with a unit. *)
Record t (U : Type) := mk { value : R; unit : U }.
Arguments mk {U} value unit.
Arguments value {U} _.
Arguments unit {U} _.
End Quantity.

(** The second argument [skycoord_to_pixel_scale_angle] is given:
    a WCS object, or the module [astropy.wcs] itself. *)
Inductive wcs_arg (W : Type) :=
| WcsObject (w : W)
| WcsModule.
Arguments WcsObject {W} w.
Arguments WcsModule {W}.

(** What [circle.py] imports and calls but does not define: units,
    sky coordinates and WCS objects of astropy, and the helper
    [skycoord_to_pixel_scale_angle] of [regions.utils.wcs_helpers].
    Attribute reads that always succeed on the documented types are
    functions; the others can raise. *)
Class Collaborators := {
  AUnit : Type;
  SkyCoord : Type;
  Frame : Type;
  WCS : Type;
  CUnit : Type;
  (* astropy.units *)
  physical_type : AUnit -> string;
  u_pixel : AUnit;
  unit_mul : AUnit -> AUnit -> AUnit;
  unit_pow : AUnit -> nat -> AUnit;
  (* [Unit.to]: the factor from one unit to another, or
     UnitConversionError *)
  unit_to : AUnit -> AUnit -> ext R;
  (* astropy.coordinates *)
  SkyCoord_new : list (R * R) -> string -> CUnit -> ext SkyCoord;
  name : SkyCoord -> string;
  transform_to : SkyCoord -> Frame -> ext SkyCoord;
  spherical_lon : SkyCoord -> Quantity.t AUnit;
  spherical_lat : SkyCoord -> Quantity.t AUnit;
  separation : SkyCoord -> SkyCoord -> ext (Quantity.t AUnit);
  (* astropy.wcs *)
  _wcs_to_celestial_frame_builtin : WCS -> ext Frame;
  wcs_world2pix :
    WCS -> Quantity.t AUnit -> Quantity.t AUnit -> Z -> ext (R * R);
  celestialwcs_crval : WCS -> ext (R * R);
  wcs_wcs_cunit : ext CUnit;
  (* regions.utils.wcs_helpers *)
  skycoord_to_pixel_scale_angle :
    SkyCoord -> wcs_arg WCS ->
    ext (R * R * Quantity.t AUnit * Quantity.t AUnit)
}.

Section QuantityOps.
Context `{Collaborators}.

(** [q1 * q2] *)
Definition q_mul (q1 q2 : Quantity.t AUnit) : Quantity.t AUnit :=
  Quantity.mk (Quantity.value q1 * Quantity.value q2)
              (unit_mul (Quantity.unit q1) (Quantity.unit q2)).

(** [q.to(u)] *)
Definition q_to (q : Quantity.t AUnit) (u : AUnit) : ext (Quantity.t AUnit) :=
  match unit_to (Quantity.unit q) u with
  | Ret f => Ret (Quantity.mk (Quantity.value q * f) u)
  | Throw cls => Throw cls
  end.
End QuantityOps.

(** ** [class CirclePixelRegion] *)

Module CirclePixelRegion.

Record t := mk {
  center : PixCoord.t;
  radius : R;
  meta : pyval;
  visual : pyval
}.

(** [__init__(self, center, radius, meta=None, visual=None)] *)
Definition init (center : PixCoord.t) (radius : R)
    (meta visual : option pyval) : M t :=
  let meta := arg PyNone meta in
  let visual := arg PyNone visual in
  let* m := or_else meta new_dict in
  let* v := or_else visual new_dict in
  ret (mk center radius m v).

Section WithCollaborators.
Context `{Collaborators}.

(** [to_sky(self, mywcs, mode='local', tolerance=None)] *)
Definition to_sky (self : t) (mywcs : WCS)
    (mode tolerance : option pyval) : M unit :=
  raise NotImplementedError.
End WithCollaborators.

End CirclePixelRegion.

(** ** [class CircleSkyRegion] *)

Module CircleSkyRegion.
Section WithCollaborators.
Context `{Collaborators}.

Record t := mk {
  center : SkyCoord;
  radius : Quantity.t AUnit;
  meta : pyval;
  visual : pyval
}.

(** [__init__(self, center, radius, meta=None, visual=None)] *)
Definition init (center : SkyCoord) (radius : Quantity.t AUnit)
    (meta visual : option pyval) : M t :=
  let meta := arg PyNone meta in
  let visual := arg PyNone visual in
  let* m := or_else meta new_dict in
  let* v := or_else visual new_dict in
  ret (mk center radius m v).

(** [__contains__(self, skycoord)] *)
Definition contains (self : t) (skycoord : SkyCoord)
    : M (Quantity.t AUnit) :=
  call (separation (center self) skycoord).

(** [to_pixel(self, mywcs, mode='local', tolerance=None)].  The
    locals [xc], [yc] are assigned on the angle path only, so they
    are a slot that line 133 reads; the two-element array built
    there becomes the [center] of the result. *)
Definition to_pixel (self : t) (mywcs : WCS)
    (mode tolerance : option pyval) : M CirclePixelRegion.t :=
  let mode := arg (PyStr "local") mode in
  let tolerance := arg PyNone tolerance in
  if ne_str mode "local" then raise NotImplementedError else
  if is_not_None tolerance then raise NotImplementedError else
  let* wcsframe := call (_wcs_to_celestial_frame_builtin mywcs) in
  let* center_in_wcsframe :=
    call (transform_to (center self) wcsframe) in
  let* (xpix, ypix) :=
    call (wcs_world2pix mywcs (spherical_lon center_in_wcsframe)
                        (spherical_lat center_in_wcsframe) 0) in
  let* (radius_pix, xc_yc) :=
    (if String.eqb (physical_type (Quantity.unit (radius self))) "angle"
     then
       let* crval := call (celestialwcs_crval mywcs) in
       let* cunit := call wcs_wcs_cunit in
       let* central_pos :=
         call (SkyCoord_new [crval] (name (center self)) cunit) in
       let* (xc, yc, scale, angle) :=
         call (skycoord_to_pixel_scale_angle central_pos WcsModule) in
       let* in_pixels :=
         call (q_to (q_mul scale (radius self)) u_pixel) in
       ret (Quantity.value in_pixels, Some (xc, yc))
     else
       ret (Quantity.value (radius self), None)) in
  let* (xc, yc) := local "xc" xc_yc in
  CirclePixelRegion.init (PixCoord.mk xc yc) radius_pix None None.

End WithCollaborators.
End CircleSkyRegion.

(** ** A test double for the collaborators

    Units are degrees, pixels and pixels per degree; a sky coordinate is
    a longitude, a latitude and the name of its frame; a WCS projects
    linearly, ten pixels per degree away from its reference value.  The
    scale the helper reports grows with the longitude of the position it
    is asked about, so that positions can be told apart. *)

Module Stub.

Inductive stub_unit := Deg | Pixel | PixelPerDeg | Other.

Record sky := mk_sky { lon : R; lat : R; frame : string }.

Record stub_wcs := mk_wcs { crval : R * R }.

Definition stub_physical_type (u : stub_unit) : string :=
  match u with
  | Deg => "angle"
  | Pixel => "unknown"
  | PixelPerDeg => "unknown"
  | Other => "unknown"
  end.

Definition stub_unit_mul (u v : stub_unit) : stub_unit :=
  match u, v with
  | PixelPerDeg, Deg => Pixel
  | Deg, PixelPerDeg => Pixel
  | _, _ => Other
  end.

Definition stub_unit_to (u v : stub_unit) : ext R :=
  match u, v with
  | Deg, Deg => Ret 1
  | Pixel, Pixel => Ret 1
  | PixelPerDeg, PixelPerDeg => Ret 1
  | _, _ => Throw "UnitConversionError"
  end.

Definition stub_SkyCoord_new (l : list (R * R)) (fr : string) (cu : unit)
    : ext sky :=
  match l with
  | [(lo, la)] => Ret (mk_sky lo la fr)
  | _ => Throw "ValueError"
  end.

Definition stub_world2pix (w : stub_wcs) (lo la : Quantity.t stub_unit)
    (origin : Z) : ext (R * R) :=
  Ret ((Quantity.value lo - fst (crval w)) * 10,
       (Quantity.value la - snd (crval w)) * 10).

Definition stub_scale_angle (pos : sky) (w : wcs_arg stub_wcs)
    : ext (R * R * Quantity.t stub_unit * Quantity.t stub_unit) :=
  Ret (lon pos * 10, lat pos * 10,
       Quantity.mk (10 + lon pos) PixelPerDeg, Quantity.mk 0 Deg).

#[export] Instance collaborators : Collaborators := {|
  AUnit := stub_unit;
  SkyCoord := sky;
  Frame := string;
  WCS := stub_wcs;
  CUnit := unit;
  physical_type := stub_physical_type;
  u_pixel := Pixel;
  unit_mul := stub_unit_mul;
  unit_pow := fun _ _ => Other;
  unit_to := stub_unit_to;
  SkyCoord_new := stub_SkyCoord_new;
  name := frame;
  transform_to := fun c fr => Ret (mk_sky (lon c) (lat c) fr);
  spherical_lon := fun c => Quantity.mk (lon c) Deg;
  spherical_lat := fun c => Quantity.mk (lat c) Deg;
  separation := fun a b => Ret (Quantity.mk (Rabs (lon a - lon b)) Deg);
  _wcs_to_celestial_frame_builtin := fun _ => Ret "icrs";
  wcs_world2pix := stub_world2pix;
  celestialwcs_crval := fun w => Ret (crval w);
  wcs_wcs_cunit := Ret tt;
  skycoord_to_pixel_scale_angle := stub_scale_angle
|}.

(** A WCS whose reference value is the origin of the sky. *)
Definition wcs0 : stub_wcs := mk_wcs (0, 0).

(** A store holding two non-empty dicts. *)
Definition store0 : heap :=
  <[1%nat := ODict {[ "color" := PyStr "red" ]}]>
    (<[0%nat := ODict {[ "label" := PyStr "src" ]}]> ∅).

(** A circle of two degrees around (1, 2), annotated with the dicts
    of [store0]. *)
Definition circle_deg : CircleSkyRegion.t :=
  CircleSkyRegion.mk (mk_sky 1 2 "galactic") (Quantity.mk 2 Deg)
                     (PyRef 0%nat) (PyRef 1%nat).

(** The same circle with its radius given in pixels. *)
Definition circle_pix : CircleSkyRegion.t :=
  CircleSkyRegion.mk (mk_sky 1 2 "galactic") (Quantity.mk 3 Pixel)
                     (PyRef 0%nat) (PyRef 1%nat).

End Stub.

(** ** What the constructors leave in [meta] and [visual]

    [given] is the argument, [h] the store in which [given or {}] is
    evaluated, [h'] the store after construction, [stored] the field. *)
Definition or_dict_post (h : heap) (given : option pyval)
    (h' : heap) (stored : pyval) : Prop :=
  (truthy h (arg PyNone given) = false ->
     exists a, stored = PyRef a /\ (a ∉ dom h) /\ h' !! a = Some (ODict ∅)) /\
  (truthy h (arg PyNone given) = true -> stored = arg PyNone given) /\
  (is_dict h (arg PyNone given) -> is_dict h' stored) /\
  stored <> PyNone.

(** ** Rendering: [CircleSkyRegion.to_mpl_patch] *)

(** A keyword value handed to matplotlib: a Python value, or the
    transform object an axes returned. *)
Inductive kwval (T : Type) :=
| KwPy (v : pyval)
| KwTransform (t : T).
Arguments KwPy {T} v.
Arguments KwTransform {T} t.

(** What [to_mpl_patch] calls and [circle.py] does not define: the
    import of [matplotlib.patches], the [icrs], [ra] and [dec]
    attributes of a sky coordinate, the unit the string ['deg'] names,
    [get_transform] of a WCS axes and the constructor
    [mpatches.Circle(xy, **kwargs)]. *)
Class Rendering (C : Collaborators) := {
  Axes : Type;
  Transform : Type;
  Patch : Type;
  import_mpatches : ext unit;
  icrs : SkyCoord -> ext SkyCoord;
  ra : SkyCoord -> Quantity.t AUnit;
  dec : SkyCoord -> Quantity.t AUnit;
  u_deg : AUnit;
  get_transform : Axes -> string -> ext Transform;
  Circle : R * R -> gmap string (kwval Transform) -> ext Patch
}.

Module Mpl.

(** [d.setdefault(key, value)] *)
Definition setdefault {V : Type} (key : string) (value : V)
    (d : gmap string V) : gmap string V :=
  match d !! key with
  | Some _ => d
  | None => <[key := value]> d
  end.

(** [d.update(other)]: the entries of [other] win. *)
Definition update {V : Type} (other d : gmap string V) : gmap string V :=
  other ∪ d.

(** [v.items()]: the entries of a dict of the store; no other value has
    the attribute, and the AttributeError reaches the caller like an
    exception of a collaborator. *)
Definition items (v : pyval) : M (gmap string pyval) :=
  fun h =>
    match v with
    | PyRef a =>
        match h !! a with
        | Some (ODict d) => Ok (d, h)
        | _ => Raise (Propagated "AttributeError")
        end
    | _ => Raise (Propagated "AttributeError")
    end.

(** Lines 158 to 162: [temp] is put over the caller's keywords, then
    every entry of [visual] is offered with [setdefault]. *)
Definition patch_kwargs {T : Type} (transform : T) (radius_deg : R)
    (kwargs : gmap string (kwval T)) (visual : gmap string pyval)
    : gmap string (kwval T) :=
  let temp : gmap string (kwval T) :=
    <["radius" := KwPy (PyFloat radius_deg)]>
      {[ "transform" := KwTransform transform ]} in
  let kwargs := update temp kwargs in
  map_fold (fun key value acc => setdefault key (KwPy value) acc)
           kwargs visual.

Section WithRendering.
Context `{Rendering}.

(** [CircleSkyRegion.to_mpl_patch(self, ax, **kwargs)]; [kwargs] is the
    dict the call protocol makes of the keyword arguments, local to the
    call. *)
Definition to_mpl_patch (self : CircleSkyRegion.t) (ax : Axes)
    (kwargs : gmap string (kwval Transform)) : M Patch :=
  let* _ := call import_mpatches in
  let* val := call (icrs (CircleSkyRegion.center self)) in
  let* ra_deg := call (q_to (ra val) u_deg) in
  let* dec_deg := call (q_to (dec val) u_deg) in
  let center := (Quantity.value ra_deg, Quantity.value dec_deg) in
  let* transform := call (get_transform ax "icrs") in
  let* radius_deg := call (q_to (CircleSkyRegion.radius self) u_deg) in
  let* visual := items (CircleSkyRegion.visual self) in
  call (Circle center
          (patch_kwargs transform (Quantity.value radius_deg) kwargs visual)).

End WithRendering.
End Mpl.

(** ** A test double for rendering

    The axes hand out the name of the frame asked for as its transform;
    a patch records the position and the keywords it was made from. *)
Module StubRender.

Record patch := mk_patch {
  xy : R * R;
  kw : gmap string (kwval string)
}.

Definition stub_icrs (c : Stub.sky) : ext Stub.sky :=
  Ret (Stub.mk_sky (Stub.lon c) (Stub.lat c) "icrs").

Definition stub_ra (c : Stub.sky) : Quantity.t Stub.stub_unit :=
  Quantity.mk (Stub.lon c) Stub.Deg.

Definition stub_dec (c : Stub.sky) : Quantity.t Stub.stub_unit :=
  Quantity.mk (Stub.lat c) Stub.Deg.

Definition stub_get_transform (ax : unit) (fr : string) : ext string :=
  Ret fr.

Definition stub_Circle (c : R * R) (k : gmap string (kwval string))
    : ext patch :=
  Ret (mk_patch c k).

#[export] Instance rendering : Rendering Stub.collaborators :=
  @Build_Rendering Stub.collaborators unit string patch
    (Ret tt) stub_icrs stub_ra stub_dec Stub.Deg
    stub_get_transform stub_Circle.

(** [circle_deg] at another place of the sky. *)
Definition circle_far : @CircleSkyRegion.t Stub.collaborators :=
  @CircleSkyRegion.mk Stub.collaborators
    (Stub.mk_sky 50 60 "galactic") (Quantity.mk 2 Stub.Deg)
    (PyRef 0%nat) (PyRef 1%nat).

End StubRender.

(** ** A test double that answers as astropy does

    Lines 124 to 128 of [to_pixel] read [mywcs.celestialwcs] and
    [wcs.wcs.cunit] and hand the module [wcs], not [mywcs], to the
    helper.  A WCS object of astropy keeps its celestial part under
    [celestial] and has no attribute [celestialwcs]; the module
    [astropy.wcs.wcs] has no [cunit]; the helper projects with the WCS
    object it is given and finds no such method on a module.  This
    double raises AttributeError in these three places and answers as
    [Stub] everywhere else. *)
Module StubAstropy.

(** [mywcs.celestialwcs] *)
Definition no_celestialwcs (w : Stub.stub_wcs) : ext (R * R) :=
  Throw "AttributeError".

(** [wcs.wcs.cunit] *)
Definition no_cunit : ext unit := Throw "AttributeError".

(** The helper, refusing a module. *)
Definition scale_angle (pos : Stub.sky) (w : wcs_arg Stub.stub_wcs)
    : ext (R * R * Quantity.t Stub.stub_unit * Quantity.t Stub.stub_unit) :=
  match w with
  | WcsObject _ => Stub.stub_scale_angle pos w
  | WcsModule => Throw "AttributeError"
  end.

#[export] Instance collaborators : Collaborators := {|
  AUnit := Stub.stub_unit;
  SkyCoord := Stub.sky;
  Frame := string;
  WCS := Stub.stub_wcs;
  CUnit := unit;
  physical_type := Stub.stub_physical_type;
  u_pixel := Stub.Pixel;
  unit_mul := Stub.stub_unit_mul;
  unit_pow := fun _ _ => Stub.Other;
  unit_to := Stub.stub_unit_to;
  SkyCoord_new := Stub.stub_SkyCoord_new;
  name := Stub.frame;
  transform_to := fun c fr => Ret (Stub.mk_sky (Stub.lon c) (Stub.lat c) fr);
  spherical_lon := fun c => Quantity.mk (Stub.lon c) Stub.Deg;
  spherical_lat := fun c => Quantity.mk (Stub.lat c) Stub.Deg;
  separation :=
    fun a b => Ret (Quantity.mk (Rabs (Stub.lon a - Stub.lon b)) Stub.Deg);
  _wcs_to_celestial_frame_builtin := fun _ => Ret "icrs";
  wcs_world2pix := Stub.stub_world2pix;
  celestialwcs_crval := no_celestialwcs;
  wcs_wcs_cunit := no_cunit;
  skycoord_to_pixel_scale_angle := scale_angle
|}.

(** The circle [Stub.circle_deg] for this double: two degrees around
    (1, 2). *)
Definition circle_deg : @CircleSkyRegion.t collaborators :=
  @CircleSkyRegion.mk collaborators
    (Stub.mk_sky 1 2 "galactic") (Quantity.mk 2 Stub.Deg)
    (PyRef 0%nat) (PyRef 1%nat).

End StubAstropy.

(** ** Doubles: [__contains__] and [area]

    A Python float is an IEEE 754 double, here a primitive [float]:
    subtraction, multiplication and [<] are the operations of the
    standard, with rounding, infinities and NaN. *)
Module Float64.

(** [PixCoord] with its two doubles. *)
Record PixCoord := mk_coord { x : float; y : float }.

(** The attributes of a [CirclePixelRegion] that [__contains__] and
    [area] read; [meta] and [visual] are not touched by them. *)
Record CirclePixelRegion := mk { center : PixCoord; radius : float }.

(** What the two methods call: [numpy.hypot] on two doubles, and the
    power [x ** 2] of a Python float, which raises OverflowError. *)
Class Numeric := {
  np_hypot : float -> float -> float;
  float_pow2 : float -> ext float
}.

(** [math.pi], the double nearest to the number pi. *)
Definition math_pi : float := 0x1.921fb54442d18p+1%float.

Section WithNumeric.
Context `{Numeric}.

(** [CirclePixelRegion.__contains__(self, pixcoord)] *)
Definition contains (self : CirclePixelRegion) (pixcoord : PixCoord)
    : M bool :=
  ret (np_hypot (x pixcoord - x (center self))
                (y pixcoord - y (center self))
       <? radius self)%float.

(** [CirclePixelRegion.area]: [math.pi * self.radius ** 2] *)
Definition area (self : CirclePixelRegion) : M float :=
  let* square := call (float_pow2 (radius self)) in
  ret (math_pi * square)%float.

End WithNumeric.

(** The number a finite double stands for, read off its sign, mantissa
    and exponent; infinities and NaN stand for none. *)
Definition sf_exact (f : spec_float) : option R :=
  match f with
  | S754_zero _ => Some 0
  | S754_finite s m e =>
      Some (IZR (if s then Z.neg m else Z.pos m) * powerRZ 2 e)
  | S754_infinity _ => None
  | S754_nan => None
  end.

Definition exact (f : float) : option R := sf_exact (Prim2SF f).

End Float64.

(** [CircleSkyRegion.area]: [math.pi * self.radius ** 2], where the
    radius is a quantity of astropy.  Both operations are astropy's: the
    square of a quantity, and the product of a double with a quantity. *)
Module SkyArea.

Class QuantityArith (Q : Type) := {
  quantity_pow2 : Q -> ext Q;
  quantity_rmul : float -> Q -> ext Q
}.

(** [radius] is [self.radius]. *)
Definition area {Q : Type} `{QuantityArith Q} (radius : Q) : M Q :=
  let* square := call (quantity_pow2 radius) in
  call (quantity_rmul Float64.math_pi square).

End SkyArea.

(** ** A test double for the arithmetic

    [hypot] by the textbook formula; the square as the IEEE product,
    with the OverflowError Python raises when a finite double has an
    infinite square. *)
Module StubNumeric.

Definition hypot (a b : float) : float := PrimFloat.sqrt (a * a + b * b)%float.

Definition pow2 (a : float) : ext float :=
  let square := (a * a)%float in
  if PrimFloat.is_infinity square && PrimFloat.is_finite a
  then Throw "OverflowError"
  else Ret square.

#[export] Instance numeric : Float64.Numeric := {|
  Float64.np_hypot := hypot;
  Float64.float_pow2 := pow2
|}.

(** The circle of radius 1 around (2^-60, 0), and the point (1, 0). *)
Definition circle_near_origin : Float64.CirclePixelRegion :=
  Float64.mk (Float64.mk_coord 0x1p-60%float 0%float) 1%float.

Definition point_1_0 : Float64.PixCoord :=
  Float64.mk_coord 1%float 0%float.

(** Circles of radius 2^600 and 2^-600 around the origin. *)
Definition circle_huge : Float64.CirclePixelRegion :=
  Float64.mk (Float64.mk_coord 0%float 0%float) 0x1p600%float.

Definition circle_tiny : Float64.CirclePixelRegion :=
  Float64.mk (Float64.mk_coord 0%float 0%float) 0x1p-600%float.

End StubNumeric.

(** ** Proof automation *)

(** One step of a computation: case on the outcome of the next
    collaborator call, or open the tuple it returned. *)
Ltac next_call :=
  first
    [ match goal with
      | |- context [call ?r ?h] =>
          let E := fresh "Hcall" in
          destruct r as [? | ?] eqn:E; cbn [call]
      end
    | match goal with
      | |- context [let (_, _) := ?x in _] => destruct x
      end ].

(** ** The claims as the specification words them

    The sentences of the specification that the code contradicts are
    written out as the specification has them. *)

(** "If the meta argument (respectively visual) is omitted, None, or any
    falsy value, the stored meta (respectively visual) is a fresh empty
    mapping; hence after construction meta and visual are always
    mappings and never None." *)
Definition always_mappings_as_specified : Prop :=
  forall (h : heap) (center : PixCoord.t) (radius : R)
         (meta visual : option pyval),
  exists c h',
    CirclePixelRegion.init center radius meta visual h = Ok (c, h') /\
    (truthy h (arg PyNone meta) = false ->
       exists a, CirclePixelRegion.meta c = PyRef a /\ (a ∉ dom h) /\
                 h' !! a = Some (ODict ∅)) /\
    is_dict h' (CirclePixelRegion.meta c) /\
    is_dict h' (CirclePixelRegion.visual c) /\
    CirclePixelRegion.meta c <> PyNone /\
    CirclePixelRegion.visual c <> PyNone.

(** "contains(point): returns true iff Euclidean distance from point to
    center is strictly less than radius", read for circles and points
    with finite coordinates, each double standing for its number. *)
Definition open_disk_as_specified (N : Float64.Numeric) : Prop :=
  forall (self : Float64.CirclePixelRegion) (pixcoord : Float64.PixCoord)
         (h : heap) (cx cy r px py : R),
    Float64.exact (Float64.x (Float64.center self)) = Some cx ->
    Float64.exact (Float64.y (Float64.center self)) = Some cy ->
    Float64.exact (Float64.radius self) = Some r ->
    Float64.exact (Float64.x pixcoord) = Some px ->
    Float64.exact (Float64.y pixcoord) = Some py ->
    exists b,
      Float64.contains self pixcoord h = Ok (b, h) /\
      (b = true <-> R_sqrt.sqrt ((px - cx)² + (py - cy)²) < r).


(** * Properties *)

(** ** The store under [given or {}] *)

Lemma new_dict_fresh (h : heap) :
  new_dict h = Ok (PyRef (fresh (dom h)), <[fresh (dom h) := ODict ∅]> h)
  /\ fresh (dom h) ∉ dom h.
Proof. split; [reflexivity | apply is_fresh]. Qed.

Lemma insert_fresh_subseteq (h : heap) (o : pyobj) :
  h ⊆ <[fresh (dom h) := o]> h.
Proof.
  apply insert_subseteq, not_elem_of_dom, is_fresh.
Qed.

Lemma is_dict_mono (h h' : heap) (v : pyval) :
  h ⊆ h' -> is_dict h v -> is_dict h' v.
Proof.
  intros Hsub (a & d & -> & Ha). exists a, d. split; [reflexivity |].
  eapply lookup_weaken; eassumption.
Qed.

Lemma truthy_dict_nonempty (h : heap) (a : addr) (d : gmap string pyval) :
  h !! a = Some (ODict d) -> truthy h (PyRef a) = true <-> d <> ∅.
Proof.
  intros Ha. cbn. rewrite Ha. split.
  - intros Hs ->. rewrite map_size_empty in Hs. discriminate.
  - intros Hne. destruct (size d) eqn:Hsz; [| reflexivity].
    apply map_size_empty_inv in Hsz. contradiction.
Qed.

(** [given or {}] always yields a value: the argument when it is true,
    otherwise a dict allocated at an address the store did not use. *)
Lemma or_else_new_dict (h : heap) (given : option pyval) :
  exists stored h',
    or_else (arg PyNone given) new_dict h = Ok (stored, h') /\
    h ⊆ h' /\
    or_dict_post h given h' stored.
Proof.
  unfold or_else. destruct (truthy h (arg PyNone given)) eqn:Ht.
  - exists (arg PyNone given), h. split; [reflexivity |].
    split; [done |]. split; [| split; [| split]].
    + congruence.
    + trivial.
    + intros Hd; exact Hd.
    + intros Hn. rewrite Hn in Ht. discriminate.
  - exists (PyRef (fresh (dom h))), (<[fresh (dom h) := ODict ∅]> h).
    split; [reflexivity |]. split; [apply insert_fresh_subseteq |].
    split; [| split; [| split]].
    + intros _. exists (fresh (dom h)).
      split; [reflexivity |]. split; [apply is_fresh |].
      apply lookup_insert_eq.
    + congruence.
    + intros _. exists (fresh (dom h)), ∅.
      split; [reflexivity | apply lookup_insert_eq].
    + congruence.
Qed.

(** A later allocation keeps what an earlier one established. *)
Lemma or_dict_post_weaken (h : heap) (given : option pyval)
    (h1 h2 : heap) (stored : pyval) :
  h1 ⊆ h2 -> or_dict_post h given h1 stored -> or_dict_post h given h2 stored.
Proof.
  intros Hsub (Hf & Ht & Hd & Hn). split; [| split; [| split]].
  - intros Hfalse. destruct (Hf Hfalse) as (a & -> & Hfresh & Ha).
    exists a. split; [reflexivity |]. split; [exact Hfresh |].
    eapply lookup_weaken; eassumption.
  - exact Ht.
  - intros Hg. eapply is_dict_mono; [exact Hsub | exact (Hd Hg)].
  - exact Hn.
Qed.

(** ** The constructors *)

Lemma init_fields (h : heap) (meta visual : option pyval) :
  exists m v h1 h',
    or_else (arg PyNone meta) new_dict h = Ok (m, h1) /\
    or_else (arg PyNone visual) new_dict h1 = Ok (v, h') /\
    h ⊆ h1 /\ h1 ⊆ h' /\
    or_dict_post h meta h' m /\
    or_dict_post h1 visual h' v /\
    (truthy h (arg PyNone meta) = false ->
     truthy h1 (arg PyNone visual) = false -> m <> v).
Proof.
  destruct (or_else_new_dict h meta) as (m & h1 & Hm & Hsub1 & Hpm).
  destruct (or_else_new_dict h1 visual) as (v & h' & Hv & Hsub2 & Hpv).
  exists m, v, h1, h'. repeat (split; [assumption |]).
  split; [eapply or_dict_post_weaken; eassumption |].
  split; [assumption |].
  intros Hfm Hfv Heq.
  destruct Hpm as (Hm1 & _). destruct Hpv as (Hv1 & _).
  destruct (Hm1 Hfm) as (a1 & -> & _ & Ha1).
  destruct (Hv1 Hfv) as (a2 & -> & Hfresh2 & _).
  injection Heq as ->. apply Hfresh2, elem_of_dom. eauto.
Qed.

Lemma pixel_init_spec (h : heap) (center : PixCoord.t) (radius : R)
    (meta visual : option pyval) :
  exists m v h1 h',
    CirclePixelRegion.init center radius meta visual h
      = Ok (CirclePixelRegion.mk center radius m v, h') /\
    h ⊆ h1 /\ h1 ⊆ h' /\
    or_dict_post h meta h' m /\
    or_dict_post h1 visual h' v /\
    (truthy h (arg PyNone meta) = false ->
     truthy h1 (arg PyNone visual) = false -> m <> v).
Proof.
  destruct (init_fields h meta visual)
    as (m & v & h1 & h' & Hm & Hv & Hrest).
  exists m, v, h1, h'. split; [| exact Hrest].
  unfold CirclePixelRegion.init, bind. rewrite Hm, Hv. reflexivity.
Qed.

Lemma sky_init_spec `{Collaborators} (h : heap) (center : SkyCoord)
    (radius : Quantity.t AUnit) (meta visual : option pyval) :
  exists m v h1 h',
    CircleSkyRegion.init center radius meta visual h
      = Ok (CircleSkyRegion.mk center radius m v, h') /\
    h ⊆ h1 /\ h1 ⊆ h' /\
    or_dict_post h meta h' m /\
    or_dict_post h1 visual h' v /\
    (truthy h (arg PyNone meta) = false ->
     truthy h1 (arg PyNone visual) = false -> m <> v).
Proof.
  destruct (init_fields h meta visual)
    as (m & v & h1 & h' & Hm & Hv & Hrest).
  exists m, v, h1, h'. split; [| exact Hrest].
  unfold CircleSkyRegion.init, bind. rewrite Hm, Hv. reflexivity.
Qed.

(** C10, as the specification words it, fails: a true argument that is
    not a mapping, here the integer 5, is stored as it is. *)
Lemma always_mappings_refuted : ~ always_mappings_as_specified.
Proof.
  intros Hspec.
  destruct (Hspec ∅ (PixCoord.mk 0 0) 1 (Some (PyInt 5)) None)
    as (c & h' & Hinit & _ & (a & d & Hmeta & _) & _).
  cbn in Hinit. injection Hinit as <- _. cbn in Hmeta. discriminate.
Qed.

(** C10 (amended): both constructors always return.  An argument that
    is omitted, [None] or false in the store where [given or {}] is
    evaluated ([h] for [meta], the store [h1] after [meta] was set for
    [visual]) is replaced by an empty dict at an address that store did
    not use, and the two dicts made for [meta] and [visual] are
    different objects; a true argument is stored itself.  Hence [meta]
    and [visual] are never [None], and they are dicts whenever the
    argument was omitted, [None], false or a dict. *)
Theorem init_meta_visual_defaults `{Collaborators} :
  (forall (h : heap) (center : PixCoord.t) (radius : R)
          (meta visual : option pyval),
    exists m v h1 h',
      CirclePixelRegion.init center radius meta visual h
        = Ok (CirclePixelRegion.mk center radius m v, h') /\
      h ⊆ h1 /\ h1 ⊆ h' /\
      or_dict_post h meta h' m /\ or_dict_post h1 visual h' v /\
      (truthy h (arg PyNone meta) = false ->
       truthy h1 (arg PyNone visual) = false -> m <> v)) /\
  (forall (h : heap) (center : SkyCoord) (radius : Quantity.t AUnit)
          (meta visual : option pyval),
    exists m v h1 h',
      CircleSkyRegion.init center radius meta visual h
        = Ok (CircleSkyRegion.mk center radius m v, h') /\
      h ⊆ h1 /\ h1 ⊆ h' /\
      or_dict_post h meta h' m /\ or_dict_post h1 visual h' v /\
      (truthy h (arg PyNone meta) = false ->
       truthy h1 (arg PyNone visual) = false -> m <> v)).
Proof.
  split; intros.
  - apply pixel_init_spec.
  - apply sky_init_spec.
Qed.

(** ** Containment on the sky and [to_sky] *)

(** C6: [point in sky_circle] evaluates to what [separation] returns for
    the center and the point, a quantity and not a truth value; an
    exception of [separation] passes through. *)
Theorem sky_contains_is_separation `{Collaborators}
    (self : CircleSkyRegion.t) (skycoord : SkyCoord) (h : heap) :
  CircleSkyRegion.contains self skycoord h
  = match separation (CircleSkyRegion.center self) skycoord with
    | Ret d => Ok (d, h)
    | Throw cls => Raise (Propagated cls)
    end.
Proof. reflexivity. Qed.

(** C7: [to_sky] raises [NotImplementedError] whatever the circle, the
    WCS, the mode, the tolerance and the store. *)
Theorem to_sky_not_implemented `{Collaborators}
    (self : CirclePixelRegion.t) (mywcs : WCS)
    (mode tolerance : option pyval) (h : heap) :
  CirclePixelRegion.to_sky self mywcs mode tolerance h
  = Raise NotImplementedError.
Proof. reflexivity. Qed.

(** ** [CircleSkyRegion.to_pixel] *)

Lemma ne_str_false_iff (v : pyval) (s : string) :
  ne_str v s = false <-> v = PyStr s.
Proof.
  destruct v; cbn; try (split; [discriminate | discriminate]).
  rewrite negb_false_iff, String.eqb_eq.
  split; [intros -> | intros [= ->]]; reflexivity.
Qed.

Lemma is_not_None_false_iff (v : pyval) :
  is_not_None v = false <-> v = PyNone.
Proof. destruct v; cbn; split; (reflexivity || discriminate). Qed.

Section ToPixel.
Context `{Collaborators}.
Implicit Types (self : CircleSkyRegion.t) (mywcs : WCS) (h : heap).
Implicit Types (mode tolerance : option pyval).

(** The two guards come first. *)
Lemma to_pixel_guards self mywcs mode tolerance h :
  arg (PyStr "local") mode <> PyStr "local" \/ arg PyNone tolerance <> PyNone ->
  CircleSkyRegion.to_pixel self mywcs mode tolerance h
  = Raise NotImplementedError.
Proof.
  intros Hbad. unfold CircleSkyRegion.to_pixel.
  destruct (ne_str (arg (PyStr "local") mode) "local") eqn:Hm;
    [reflexivity |].
  destruct (is_not_None (arg PyNone tolerance)) eqn:Ht; [reflexivity |].
  apply ne_str_false_iff in Hm. apply is_not_None_false_iff in Ht.
  destruct Hbad; contradiction.
Qed.

(** Whenever [to_pixel] returns, what it returns was built by
    [CirclePixelRegion(pixel_positions, radius_pix)], without [meta]
    and [visual], in the store [to_pixel] was entered with. *)
Lemma to_pixel_returns_init self mywcs mode tolerance h p h' :
  CircleSkyRegion.to_pixel self mywcs mode tolerance h = Ok (p, h') ->
  exists c r, CirclePixelRegion.init c r None None h = Ok (p, h').
Proof.
  unfold CircleSkyRegion.to_pixel.
  destruct (ne_str _ _); [discriminate |].
  destruct (is_not_None _); [discriminate |].
  unfold bind, local, ret, raise.
  destruct (String.eqb _ _);
    repeat (next_call; try discriminate); eauto.
Qed.

(** With the guards passed, no exception of [to_pixel]'s own making is
    a [NotImplementedError]. *)
Lemma to_pixel_local_not_NotImplementedError self mywcs mode tolerance h :
  arg (PyStr "local") mode = PyStr "local" ->
  arg PyNone tolerance = PyNone ->
  CircleSkyRegion.to_pixel self mywcs mode tolerance h
  <> Raise NotImplementedError.
Proof.
  intros Hm Ht. unfold CircleSkyRegion.to_pixel. rewrite Hm, Ht.
  cbn [ne_str is_not_None].
  rewrite String.eqb_refl. cbn [negb].
  unfold bind, local, ret, raise.
  destruct (String.eqb _ _);
    repeat (next_call; try discriminate).
Qed.

(** The angle path: when every collaborator call returns, [to_pixel]
    constructs its result from what the helper returned for
    [central_pos]. *)
Lemma to_pixel_angle_path self mywcs mode tolerance h
    wcsframe center_in_wcsframe xpix ypix crval cunit central_pos
    xc yc scale angle in_pixels :
  arg (PyStr "local") mode = PyStr "local" ->
  arg PyNone tolerance = PyNone ->
  _wcs_to_celestial_frame_builtin mywcs = Ret wcsframe ->
  transform_to (CircleSkyRegion.center self) wcsframe
    = Ret center_in_wcsframe ->
  wcs_world2pix mywcs (spherical_lon center_in_wcsframe)
                (spherical_lat center_in_wcsframe) 0 = Ret (xpix, ypix) ->
  physical_type (Quantity.unit (CircleSkyRegion.radius self)) = "angle" ->
  celestialwcs_crval mywcs = Ret crval ->
  wcs_wcs_cunit = Ret cunit ->
  SkyCoord_new [crval] (name (CircleSkyRegion.center self)) cunit
    = Ret central_pos ->
  skycoord_to_pixel_scale_angle central_pos WcsModule
    = Ret (xc, yc, scale, angle) ->
  q_to (q_mul scale (CircleSkyRegion.radius self)) u_pixel
    = Ret in_pixels ->
  CircleSkyRegion.to_pixel self mywcs mode tolerance h
  = CirclePixelRegion.init (PixCoord.mk xc yc) (Quantity.value in_pixels)
                           None None h.
Proof.
  intros Hm Ht Hf Htr Hw Hty Hcr Hcu Hnew Hsc Hto.
  unfold CircleSkyRegion.to_pixel. rewrite Hm, Ht.
  cbn [ne_str is_not_None]. rewrite String.eqb_refl. cbn [negb].
  unfold bind, call. rewrite Hf, Htr, Hw, Hty, String.eqb_refl.
  rewrite Hcr, Hcu, Hnew, Hsc, Hto. reflexivity.
Qed.

(** The other path: the radius is not an angle, [xc] was never
    assigned, and reading it raises. *)
Lemma to_pixel_pixel_path self mywcs mode tolerance h
    wcsframe center_in_wcsframe xpix ypix :
  arg (PyStr "local") mode = PyStr "local" ->
  arg PyNone tolerance = PyNone ->
  _wcs_to_celestial_frame_builtin mywcs = Ret wcsframe ->
  transform_to (CircleSkyRegion.center self) wcsframe
    = Ret center_in_wcsframe ->
  wcs_world2pix mywcs (spherical_lon center_in_wcsframe)
                (spherical_lat center_in_wcsframe) 0 = Ret (xpix, ypix) ->
  physical_type (Quantity.unit (CircleSkyRegion.radius self)) <> "angle" ->
  CircleSkyRegion.to_pixel self mywcs mode tolerance h
  = Raise (UnboundLocalError "xc").
Proof.
  intros Hm Ht Hf Htr Hw Hty.
  unfold CircleSkyRegion.to_pixel. rewrite Hm, Ht.
  cbn [ne_str is_not_None]. rewrite String.eqb_refl. cbn [negb].
  unfold bind, call. rewrite Hf, Htr, Hw.
  apply String.eqb_neq in Hty. rewrite Hty. reflexivity.
Qed.

End ToPixel.

Section ToPixelClaims.
Context `{Collaborators}.
Implicit Types (self : CircleSkyRegion.t) (mywcs : WCS) (h : heap).
Implicit Types (mode tolerance : option pyval).

(** C4: [to_pixel] raises its [NotImplementedError] exactly when the
    mode is not ['local'] or the tolerance is not [None].  (An
    exception that escapes from a collaborator is [Propagated], not
    this error.) *)
Theorem to_pixel_NotImplementedError_iff self mywcs mode tolerance h :
  CircleSkyRegion.to_pixel self mywcs mode tolerance h
    = Raise NotImplementedError
  <-> (arg (PyStr "local") mode <> PyStr "local"
       \/ arg PyNone tolerance <> PyNone).
Proof.
  split; [| apply to_pixel_guards].
  intros Hraise.
  destruct (ne_str (arg (PyStr "local") mode) "local") eqn:Hm.
  { left. intros Heq. apply ne_str_false_iff in Heq. congruence. }
  destruct (is_not_None (arg PyNone tolerance)) eqn:Ht.
  { right. intros Heq. apply is_not_None_false_iff in Heq. congruence. }
  apply ne_str_false_iff in Hm. apply is_not_None_false_iff in Ht.
  exfalso.
  exact (to_pixel_local_not_NotImplementedError
           self mywcs mode tolerance h Hm Ht Hraise).
Qed.

(** A radius that is not an angle never yields a pixel circle. *)
Lemma to_pixel_non_angle_never_returns self mywcs mode tolerance h p h' :
  physical_type (Quantity.unit (CircleSkyRegion.radius self)) <> "angle" ->
  CircleSkyRegion.to_pixel self mywcs mode tolerance h <> Ok (p, h').
Proof.
  intros Hty. apply String.eqb_neq in Hty.
  unfold CircleSkyRegion.to_pixel.
  destruct (ne_str _ _); [discriminate |].
  destruct (is_not_None _); [discriminate |].
  unfold bind, local, ret, raise. rewrite Hty.
  repeat (next_call; try discriminate).
Qed.

(** C8: a sky circle annotated with non-empty [meta] and [visual]
    dicts converts to a pixel circle whose [meta] and [visual] are
    empty dicts, other objects than the source's, which are left as
    they were. *)
Theorem to_pixel_drops_meta_visual self mywcs mode tolerance h p h'
    (am av : addr) (dm dv : gmap string pyval) :
  CircleSkyRegion.meta self = PyRef am ->
  h !! am = Some (ODict dm) -> dm <> ∅ ->
  CircleSkyRegion.visual self = PyRef av ->
  h !! av = Some (ODict dv) -> dv <> ∅ ->
  CircleSkyRegion.to_pixel self mywcs mode tolerance h = Ok (p, h') ->
  is_empty_dict h' (CirclePixelRegion.meta p) /\
  is_empty_dict h' (CirclePixelRegion.visual p) /\
  CirclePixelRegion.meta p <> CircleSkyRegion.meta self /\
  CirclePixelRegion.visual p <> CircleSkyRegion.visual self /\
  h' !! am = Some (ODict dm) /\
  h' !! av = Some (ODict dv).
Proof.
  intros Hmeta Ham Hdm Hvis Hav Hdv Hret.
  apply to_pixel_returns_init in Hret as (c & r & Hinit).
  destruct (pixel_init_spec h c r None None)
    as (m & v & h1 & h2 & Hinit' & Hsub1 & Hsub2 & Hpm & Hpv & _).
  rewrite Hinit' in Hinit. injection Hinit as <- <-.
  cbn [CirclePixelRegion.meta CirclePixelRegion.visual].
  destruct Hpm as (Hfm & _). destruct Hpv as (Hfv & _).
  destruct (Hfm eq_refl) as (a1 & -> & Hfresh1 & Ha1).
  destruct (Hfv eq_refl) as (a2 & -> & Hfresh2 & Ha2).
  assert (Ham1 : h1 !! am = Some (ODict dm))
    by (eapply lookup_weaken; eassumption).
  assert (Hav1 : h1 !! av = Some (ODict dv))
    by (eapply lookup_weaken; eassumption).
  split; [exists a1; split; [reflexivity | exact Ha1] |].
  split; [exists a2; split; [reflexivity | exact Ha2] |].
  split.
  { rewrite Hmeta. intros [= ->]. apply Hfresh1, elem_of_dom. eauto. }
  split.
  { rewrite Hvis. intros [= ->]. apply Hfresh2, elem_of_dom. eauto. }
  split; eapply lookup_weaken; eassumption.
Qed.

End ToPixelClaims.

(** ** The claims at the test double *)

(** The collaborator calls of [to_pixel] for [circle_deg] under [wcs0]:
    the center (1, 2) projects to the pixel (10, 20), while
    [central_pos] is the origin, where the helper reports the pixel
    (0, 0) and a scale of 10 pixels per degree. *)
Lemma stub_to_pixel_deg (h : heap) :
  CircleSkyRegion.to_pixel Stub.circle_deg Stub.wcs0 None None h
  = CirclePixelRegion.init (PixCoord.mk (0 * 10) (0 * 10))
                           ((10 + 0) * 2 * 1) None None h.
Proof.
  exact (to_pixel_angle_path Stub.circle_deg Stub.wcs0 None None h
           "icrs" (Stub.mk_sky 1 2 "icrs") ((1 - 0) * 10) ((2 - 0) * 10)
           (0, 0) tt (Stub.mk_sky 0 0 "galactic")
           (0 * 10) (0 * 10) (Quantity.mk (10 + 0) Stub.PixelPerDeg)
           (Quantity.mk 0 Stub.Deg)
           (Quantity.mk ((10 + 0) * 2 * 1) Stub.Pixel)
           eq_refl eq_refl eq_refl eq_refl eq_refl eq_refl
           eq_refl eq_refl eq_refl eq_refl eq_refl).
Qed.

(** C1, evaluated: the circle [circle_deg] has its center at (1, 2),
    which [wcs0] projects to the pixel (10, 20); [to_pixel] returns a
    circle centered on the pixel (0, 0), the one the helper reports for
    the reference value of [wcs0]. *)
Theorem to_pixel_center_is_reference_pixel :
  exists p h' center_in_wcsframe,
    CircleSkyRegion.to_pixel Stub.circle_deg Stub.wcs0 None None Stub.store0
      = Ok (p, h') /\
    @transform_to Stub.collaborators
      (CircleSkyRegion.center Stub.circle_deg) "icrs"
      = Ret center_in_wcsframe /\
    @wcs_world2pix Stub.collaborators Stub.wcs0
      (spherical_lon center_in_wcsframe)
      (spherical_lat center_in_wcsframe) 0
      = Ret ((1 - 0) * 10, (2 - 0) * 10) /\
    CirclePixelRegion.center p = PixCoord.mk (0 * 10) (0 * 10) /\
    CirclePixelRegion.center p <> PixCoord.mk ((1 - 0) * 10) ((2 - 0) * 10).
Proof.
  destruct (pixel_init_spec Stub.store0 (PixCoord.mk (0 * 10) (0 * 10))
              ((10 + 0) * 2 * 1) None None)
    as (m & v & h1 & h' & Hinit & _).
  eexists _, h', (Stub.mk_sky 1 2 "icrs").
  split; [rewrite stub_to_pixel_deg; exact Hinit |].
  split; [reflexivity |]. split; [reflexivity |].
  split; [reflexivity |].
  cbn [CirclePixelRegion.center]. intros [= Hx Hy]. lra.
Qed.

(** The example of the specification: two degrees at ten pixels per
    degree give a radius of twenty pixels. *)
Example to_pixel_radius_twenty :
  exists p h',
    CircleSkyRegion.to_pixel Stub.circle_deg Stub.wcs0 None None Stub.store0
      = Ok (p, h') /\
    CirclePixelRegion.radius p = 20.
Proof.
  destruct (pixel_init_spec Stub.store0 (PixCoord.mk (0 * 10) (0 * 10))
              ((10 + 0) * 2 * 1) None None)
    as (m & v & h1 & h' & Hinit & _).
  eexists _, h'. split; [rewrite stub_to_pixel_deg; exact Hinit |].
  cbn [CirclePixelRegion.radius]. lra.
Qed.

(** C3, evaluated: for [circle_pix], whose radius is 3 pixels,
    [to_pixel] takes the path that leaves [xc] unassigned and raises
    when line 133 reads it; no pixel circle is returned. *)
Theorem to_pixel_pixel_radius_unbound_xc :
  CircleSkyRegion.to_pixel Stub.circle_pix Stub.wcs0 None None Stub.store0
  = Raise (UnboundLocalError "xc").
Proof.
  apply (to_pixel_pixel_path Stub.circle_pix Stub.wcs0 None None Stub.store0
           "icrs" (Stub.mk_sky 1 2 "icrs") ((1 - 0) * 10) ((2 - 0) * 10));
    try reflexivity.
  discriminate.
Qed.

Lemma store0_meta :
  Stub.store0 !! 0%nat = Some (ODict {[ "label" := PyStr "src" ]}).
Proof.
  unfold Stub.store0. rewrite lookup_insert_ne by discriminate.
  apply lookup_insert_eq.
Defined.

Lemma store0_visual :
  Stub.store0 !! 1%nat = Some (ODict {[ "color" := PyStr "red" ]}).
Proof. unfold Stub.store0. apply lookup_insert_eq. Defined.

(** C8 applies to [circle_deg], whose [meta] and [visual] are the two
    dicts of [store0]. *)
Lemma to_pixel_drops_meta_visual_witness :
  exists p h',
    CircleSkyRegion.to_pixel Stub.circle_deg Stub.wcs0 None None Stub.store0
      = Ok (p, h') /\
    is_empty_dict h' (CirclePixelRegion.meta p) /\
    is_empty_dict h' (CirclePixelRegion.visual p) /\
    CirclePixelRegion.meta p <> CircleSkyRegion.meta Stub.circle_deg /\
    CirclePixelRegion.visual p <> CircleSkyRegion.visual Stub.circle_deg /\
    h' !! 0%nat = Some (ODict {[ "label" := PyStr "src" ]}) /\
    h' !! 1%nat = Some (ODict {[ "color" := PyStr "red" ]}).
Proof.
  destruct (pixel_init_spec Stub.store0 (PixCoord.mk (0 * 10) (0 * 10))
              ((10 + 0) * 2 * 1) None None)
    as (m & v & h1 & h' & Hinit & _).
  assert (Hret :
    CircleSkyRegion.to_pixel Stub.circle_deg Stub.wcs0 None None Stub.store0
    = Ok (CirclePixelRegion.mk (PixCoord.mk (0 * 10) (0 * 10))
                               ((10 + 0) * 2 * 1) m v, h'))
    by (rewrite stub_to_pixel_deg; exact Hinit).
  eexists _, h'. split; [exact Hret |].
  exact (to_pixel_drops_meta_visual
           Stub.circle_deg Stub.wcs0 None None Stub.store0 _ h'
           0%nat 1%nat _ _
           eq_refl store0_meta (map_non_empty_singleton _ _)
           eq_refl store0_visual (map_non_empty_singleton _ _)
           Hret).
Defined.

(** * Further properties of the module *)

(** ** The constructors and the store *)

Lemma or_else_shares_iff (h : heap) (a : addr) (d : gmap string pyval)
    (stored : pyval) (h' : heap) :
  h !! a = Some (ODict d) ->
  or_else (PyRef a) new_dict h = Ok (stored, h') ->
  (stored = PyRef a <-> d <> ∅) /\ h' !! a = Some (ODict d).
Proof.
  intros Ha. unfold or_else.
  destruct (truthy h (PyRef a)) eqn:Ht.
  - intros [= <- <-]. apply (truthy_dict_nonempty h a d Ha) in Ht.
    split; [| exact Ha]. split; [intros _; exact Ht | reflexivity].
  - unfold new_dict. intros [= <- <-]. split.
    + split.
      * intros [= Heq]. exfalso. apply (is_fresh (dom h)).
        rewrite Heq. apply elem_of_dom. eauto.
      * intros Hne. apply (truthy_dict_nonempty h a d Ha) in Hne.
        congruence.
    + eapply lookup_weaken; [exact Ha | apply insert_fresh_subseteq].
Qed.

Section Constructors.
Context `{Collaborators}.

(** X5: a dict given as [meta] or [visual] becomes the circle's own
    field, the same object, exactly when it is not empty; an empty dict
    is replaced by a new one, and the caller's dict is left as it was in
    either case.  So later changes to a dict that was empty when it was
    passed do not reach the circle. *)
Theorem init_shares_nonempty_dict :
  (forall (h : heap) (center : PixCoord.t) (radius : R)
          (am av : addr) (dm dv : gmap string pyval),
     h !! am = Some (ODict dm) -> h !! av = Some (ODict dv) ->
     exists c h',
       CirclePixelRegion.init center radius
         (Some (PyRef am)) (Some (PyRef av)) h = Ok (c, h') /\
       (CirclePixelRegion.meta c = PyRef am <-> dm <> ∅) /\
       (CirclePixelRegion.visual c = PyRef av <-> dv <> ∅) /\
       h' !! am = Some (ODict dm) /\ h' !! av = Some (ODict dv)) /\
  (forall (h : heap) (center : SkyCoord) (radius : Quantity.t AUnit)
          (am av : addr) (dm dv : gmap string pyval),
     h !! am = Some (ODict dm) -> h !! av = Some (ODict dv) ->
     exists c h',
       CircleSkyRegion.init center radius
         (Some (PyRef am)) (Some (PyRef av)) h = Ok (c, h') /\
       (CircleSkyRegion.meta c = PyRef am <-> dm <> ∅) /\
       (CircleSkyRegion.visual c = PyRef av <-> dv <> ∅) /\
       h' !! am = Some (ODict dm) /\ h' !! av = Some (ODict dv)).
Proof.
  assert (Hboth : forall (h : heap) am av dm dv,
    h !! am = Some (ODict dm) -> h !! av = Some (ODict dv) ->
    exists m v h1 h',
      or_else (arg PyNone (Some (PyRef am))) new_dict h = Ok (m, h1) /\
      or_else (arg PyNone (Some (PyRef av))) new_dict h1 = Ok (v, h') /\
      (m = PyRef am <-> dm <> ∅) /\ (v = PyRef av <-> dv <> ∅) /\
      h' !! am = Some (ODict dm) /\ h' !! av = Some (ODict dv)).
  { intros h am av dm dv Ham Hav.
    destruct (or_else_new_dict h (Some (PyRef am)))
      as (m & h1 & Hm & Hsub1 & _).
    destruct (or_else_new_dict h1 (Some (PyRef av)))
      as (v & h' & Hv & Hsub2 & _).
    destruct (or_else_shares_iff h am dm m h1 Ham Hm) as (Hiffm & Ham1).
    assert (Hav1 : h1 !! av = Some (ODict dv))
      by (eapply lookup_weaken; eassumption).
    destruct (or_else_shares_iff h1 av dv v h' Hav1 Hv) as (Hiffv & Hav').
    exists m, v, h1, h'. repeat (split; [assumption |]).
    split; [eapply lookup_weaken; eassumption | assumption]. }
  split; intros h center radius am av dm dv Ham Hav;
    destruct (Hboth h am av dm dv Ham Hav)
      as (m & v & h1 & h' & Hm & Hv & Hrest).
  - exists (CirclePixelRegion.mk center radius m v), h'.
    split; [| exact Hrest].
    unfold CirclePixelRegion.init, bind. rewrite Hm, Hv. reflexivity.
  - exists (CircleSkyRegion.mk center radius m v), h'.
    split; [| exact Hrest].
    unfold CircleSkyRegion.init, bind. rewrite Hm, Hv. reflexivity.
Qed.

End Constructors.

Lemma init_shares_nonempty_dict_witness :
  exists c h',
    CirclePixelRegion.init (PixCoord.mk 0 0) 1
      (Some (PyRef 0%nat)) (Some (PyRef 1%nat)) Stub.store0 = Ok (c, h') /\
    (CirclePixelRegion.meta c = PyRef 0%nat
     <-> ({[ "label" := PyStr "src" ]} : gmap string pyval) <> ∅) /\
    (CirclePixelRegion.visual c = PyRef 1%nat
     <-> ({[ "color" := PyStr "red" ]} : gmap string pyval) <> ∅) /\
    h' !! 0%nat = Some (ODict {[ "label" := PyStr "src" ]}) /\
    h' !! 1%nat = Some (ODict {[ "color" := PyStr "red" ]}).
Proof.
  exact (proj1 (@init_shares_nonempty_dict Stub.collaborators)
           Stub.store0 (PixCoord.mk 0 0) 1 0%nat 1%nat _ _
           store0_meta store0_visual).
Defined.

(** ** More on [CircleSkyRegion.to_pixel] *)

Lemma pixel_init_omitted (h : heap) (center : PixCoord.t) (radius : R) :
  let a1 := fresh (dom h) in
  let h1 : heap := <[a1 := ODict ∅]> h in
  let a2 := fresh (dom h1) in
  CirclePixelRegion.init center radius None None h
  = Ok (CirclePixelRegion.mk center radius (PyRef a1) (PyRef a2),
        <[a2 := ODict ∅]> h1).
Proof. reflexivity. Qed.

Section ToPixelMore.
Context `{Collaborators}.
Implicit Types (self : CircleSkyRegion.t) (mywcs : WCS) (h : heap).
Implicit Types (mode tolerance : option pyval).

(** What a returned result was computed from. *)
Lemma to_pixel_returns_inv self mywcs mode tolerance h p h' :
  CircleSkyRegion.to_pixel self mywcs mode tolerance h = Ok (p, h') ->
  exists crval cunit central_pos xc yc scale angle in_pixels,
    celestialwcs_crval mywcs = Ret crval /\
    wcs_wcs_cunit = Ret cunit /\
    SkyCoord_new [crval] (name (CircleSkyRegion.center self)) cunit
      = Ret central_pos /\
    skycoord_to_pixel_scale_angle central_pos WcsModule
      = Ret (xc, yc, scale, angle) /\
    q_to (q_mul scale (CircleSkyRegion.radius self)) u_pixel
      = Ret in_pixels /\
    CirclePixelRegion.init (PixCoord.mk xc yc) (Quantity.value in_pixels)
                           None None h = Ok (p, h').
Proof.
  unfold CircleSkyRegion.to_pixel.
  destruct (ne_str _ _); [discriminate |].
  destruct (is_not_None _); [discriminate |].
  unfold bind, local, ret, raise.
  destruct (String.eqb _ _);
    repeat (next_call; try discriminate).
  intros Hinit. do 8 eexists.
  repeat (split; [first [eassumption | reflexivity] |]). exact Hinit.
Qed.

(** X7: [to_pixel] returns only for a radius that is an angle, with the
    mode ['local'] and no tolerance; the only [UnboundLocalError] it
    raises is the one for [xc], and only for a radius that is not an
    angle. *)
Theorem to_pixel_outcomes self mywcs mode tolerance h :
  (forall p h',
     CircleSkyRegion.to_pixel self mywcs mode tolerance h = Ok (p, h') ->
     physical_type (Quantity.unit (CircleSkyRegion.radius self)) = "angle"
     /\ arg (PyStr "local") mode = PyStr "local"
     /\ arg PyNone tolerance = PyNone) /\
  (forall var,
     CircleSkyRegion.to_pixel self mywcs mode tolerance h
       = Raise (UnboundLocalError var) ->
     var = "xc" /\
     physical_type (Quantity.unit (CircleSkyRegion.radius self)) <> "angle").
Proof.
  split.
  - intros p h' Hret. split; [| split].
    + destruct (String.eqb_spec
                  (physical_type (Quantity.unit (CircleSkyRegion.radius self)))
                  "angle") as [Heq | Hne]; [exact Heq |].
      exfalso.
      exact (to_pixel_non_angle_never_returns
               self mywcs mode tolerance h p h' Hne Hret).
    + apply ne_str_false_iff. revert Hret. unfold CircleSkyRegion.to_pixel.
      destruct (ne_str _ _); [discriminate | reflexivity].
    + apply is_not_None_false_iff. revert Hret.
      unfold CircleSkyRegion.to_pixel.
      destruct (ne_str _ _); [discriminate |].
      destruct (is_not_None _); [discriminate | reflexivity].
  - intros var. unfold CircleSkyRegion.to_pixel.
    destruct (ne_str _ _); [discriminate |].
    destruct (is_not_None _); [discriminate |].
    unfold bind, local, ret, raise.
    destruct (String.eqb _ _) eqn:Hty;
      repeat (next_call; try discriminate).
    intros [= <-]. split; [reflexivity |].
    apply String.eqb_neq. exact Hty.
Qed.

(** X9: the result of [to_pixel] does not depend on where the circle
    is.  Two sky circles with the same radius whose centers are in the
    frame of the same name convert, whenever both conversions return, to
    the same pixel circle and the same store. *)
Theorem to_pixel_ignores_position self1 self2 mywcs
    mode1 tolerance1 mode2 tolerance2 h p1 h1 p2 h2 :
  name (CircleSkyRegion.center self1) = name (CircleSkyRegion.center self2) ->
  CircleSkyRegion.radius self1 = CircleSkyRegion.radius self2 ->
  CircleSkyRegion.to_pixel self1 mywcs mode1 tolerance1 h = Ok (p1, h1) ->
  CircleSkyRegion.to_pixel self2 mywcs mode2 tolerance2 h = Ok (p2, h2) ->
  p1 = p2 /\ h1 = h2.
Proof.
  intros Hname Hrad Hret1 Hret2.
  apply to_pixel_returns_inv in Hret1
    as (crval & cunit & cpos & xc & yc & scale & angle & inpix
        & Hcr & Hcu & Hnew & Hsc & Hto & Hinit1).
  apply to_pixel_returns_inv in Hret2
    as (crval' & cunit' & cpos' & xc' & yc' & scale' & angle' & inpix'
        & Hcr' & Hcu' & Hnew' & Hsc' & Hto' & Hinit2).
  rewrite Hcr in Hcr'. injection Hcr' as <-.
  rewrite Hcu in Hcu'. injection Hcu' as <-.
  rewrite <- Hname, Hnew in Hnew'. injection Hnew' as <-.
  rewrite Hsc in Hsc'. injection Hsc' as Hxc Hyc Hscale Hangle.
  subst xc' yc' scale' angle'.
  rewrite <- Hrad, Hto in Hto'. injection Hto' as <-.
  rewrite Hinit1 in Hinit2. injection Hinit2 as <- <-.
  split; reflexivity.
Qed.

End ToPixelMore.

Lemma stub_to_pixel_far (h : heap) :
  CircleSkyRegion.to_pixel StubRender.circle_far Stub.wcs0 None None h
  = CirclePixelRegion.init (PixCoord.mk (0 * 10) (0 * 10))
                           ((10 + 0) * 2 * 1) None None h.
Proof.
  exact (to_pixel_angle_path StubRender.circle_far Stub.wcs0 None None h
           "icrs" (Stub.mk_sky 50 60 "icrs")
           ((50 - 0) * 10) ((60 - 0) * 10)
           (0, 0) tt (Stub.mk_sky 0 0 "galactic")
           (0 * 10) (0 * 10) (Quantity.mk (10 + 0) Stub.PixelPerDeg)
           (Quantity.mk 0 Stub.Deg)
           (Quantity.mk ((10 + 0) * 2 * 1) Stub.Pixel)
           eq_refl eq_refl eq_refl eq_refl eq_refl eq_refl
           eq_refl eq_refl eq_refl eq_refl eq_refl).
Qed.

Lemma stub_to_pixel_deg_returns :
  exists p h',
    CircleSkyRegion.to_pixel Stub.circle_deg Stub.wcs0 None None Stub.store0
    = Ok (p, h').
Proof.
  eexists _, _. rewrite stub_to_pixel_deg. apply pixel_init_omitted.
Defined.

(** At the test double the circle at (1, 2) and the circle at (50, 60)
    convert to the same pixel circle. *)
Lemma to_pixel_ignores_position_witness :
  exists p h',
    CircleSkyRegion.to_pixel Stub.circle_deg Stub.wcs0 None None Stub.store0
      = Ok (p, h') /\
    CircleSkyRegion.to_pixel StubRender.circle_far Stub.wcs0 None None
                             Stub.store0
      = Ok (p, h').
Proof.
  destruct stub_to_pixel_deg_returns as (p1 & h1 & Hret1).
  assert (Hret2 : exists p2 h2,
    CircleSkyRegion.to_pixel StubRender.circle_far Stub.wcs0 None None
                             Stub.store0 = Ok (p2, h2)).
  { eexists _, _. rewrite stub_to_pixel_far. apply pixel_init_omitted. }
  destruct Hret2 as (p2 & h2 & Hret2).
  destruct (to_pixel_ignores_position
              Stub.circle_deg StubRender.circle_far Stub.wcs0
              None None None None Stub.store0 p1 h1 p2 h2
              eq_refl eq_refl Hret1 Hret2) as (Hp & Hh).
  exists p1, h1. split; [exact Hret1 |]. rewrite Hp, Hh. exact Hret2.
Defined.

(** ** [CircleSkyRegion.to_mpl_patch] *)

Lemma setdefault_union {V : Type} (key : string) (value : V)
    (d : gmap string V) :
  Mpl.setdefault key value d = d ∪ {[ key := value ]}.
Proof.
  unfold Mpl.setdefault. destruct (d !! key) as [old |] eqn:Hk.
  - apply map_eq. intros j. rewrite lookup_union.
    destruct (decide (j = key)) as [-> | Hne].
    + rewrite lookup_singleton_eq, Hk. reflexivity.
    + rewrite lookup_singleton_ne by congruence.
      destruct (d !! j); reflexivity.
  - apply insert_union_singleton_r. exact Hk.
Qed.

(** The loop of lines 161 and 162 puts [visual] under the keywords. *)
Lemma setdefault_loop_union {T : Type} (kwargs : gmap string (kwval T))
    (visual : gmap string pyval) :
  map_fold (fun key value acc => Mpl.setdefault key (KwPy value) acc)
           kwargs visual
  = kwargs ∪ (KwPy <$> visual).
Proof.
  apply (map_fold_weak_ind
           (fun r (m : gmap string pyval) => r = kwargs ∪ (KwPy <$> m))).
  - rewrite fmap_empty, (right_id_L ∅ (∪)). reflexivity.
  - intros i x m r Hi ->.
    rewrite setdefault_union, fmap_insert.
    rewrite (insert_union_singleton_r (KwPy <$> m))
      by (rewrite lookup_fmap, Hi; reflexivity).
    rewrite (assoc_L (∪)). reflexivity.
Qed.

Lemma patch_kwargs_union {T : Type} (transform : T) (radius_deg : R)
    (kwargs : gmap string (kwval T)) (visual : gmap string pyval) :
  Mpl.patch_kwargs transform radius_deg kwargs visual
  = <["radius" := KwPy (PyFloat radius_deg)]>
      (<["transform" := KwTransform transform]>
         (kwargs ∪ (KwPy <$> visual))).
Proof.
  unfold Mpl.patch_kwargs, Mpl.update. rewrite setdefault_loop_union.
  rewrite <- (assoc_L (∪)).
  rewrite <- insert_union_l. f_equal.
  rewrite <- insert_union_singleton_l. reflexivity.
Qed.

(** X10: in the keywords [to_mpl_patch] hands to [mpatches.Circle],
    [transform] and [radius] are always the ones it computed, whatever
    the caller or [visual] gave under these names; any other keyword
    has the caller's value if the caller gave one, else the one of
    [visual]; and no other keyword appears. *)
Theorem patch_kwargs_precedence {T : Type} (transform : T) (radius_deg : R)
    (kwargs : gmap string (kwval T)) (visual : gmap string pyval) :
  let kw := Mpl.patch_kwargs transform radius_deg kwargs visual in
  kw !! "transform" = Some (KwTransform transform) /\
  kw !! "radius" = Some (KwPy (PyFloat radius_deg)) /\
  (forall key, key <> "transform" -> key <> "radius" ->
     kw !! key = match kwargs !! key with
                 | Some v => Some v
                 | None => KwPy <$> visual !! key
                 end) /\
  dom kw = {[ "transform"; "radius" ]} ∪ dom kwargs ∪ dom visual.
Proof.
  intros kw. unfold kw. rewrite patch_kwargs_union.
  split; [| split; [| split]].
  - rewrite lookup_insert_ne by discriminate. apply lookup_insert_eq.
  - apply lookup_insert_eq.
  - intros key Ht Hr.
    rewrite lookup_insert_ne by congruence.
    rewrite lookup_insert_ne by congruence.
    rewrite lookup_union, lookup_fmap.
    destruct (kwargs !! key), (visual !! key); reflexivity.
  - rewrite !dom_insert_L, dom_union_L, dom_fmap_L.
    apply set_eq. intros x.
    rewrite !elem_of_union, !elem_of_singleton. tauto.
Qed.

Lemma items_dict (h : heap) (a : addr) (d : gmap string pyval) :
  h !! a = Some (ODict d) -> Mpl.items (PyRef a) h = Ok (d, h).
Proof. intros Ha. unfold Mpl.items. rewrite Ha. reflexivity. Qed.

Section ToMplPatch.
Context `{Rendering}.
Implicit Types (self : CircleSkyRegion.t) (ax : Axes) (h : heap).
Implicit Types (kwargs : gmap string (kwval Transform)).

(** Up to the read of [visual]: every collaborator call returns. *)
Lemma to_mpl_patch_calls self ax kwargs h
    val ra_deg dec_deg transform radius_deg :
  import_mpatches = Ret tt ->
  icrs (CircleSkyRegion.center self) = Ret val ->
  q_to (ra val) u_deg = Ret ra_deg ->
  q_to (dec val) u_deg = Ret dec_deg ->
  get_transform ax "icrs" = Ret transform ->
  q_to (CircleSkyRegion.radius self) u_deg = Ret radius_deg ->
  Mpl.to_mpl_patch self ax kwargs h
  = bind (Mpl.items (CircleSkyRegion.visual self))
      (fun visual =>
         call (Circle (Quantity.value ra_deg, Quantity.value dec_deg)
                 (Mpl.patch_kwargs transform (Quantity.value radius_deg)
                                   kwargs visual))) h.
Proof.
  intros Himp Hicrs Hra Hdec Htr Hrad.
  unfold Mpl.to_mpl_patch, bind, call.
  rewrite Himp, Hicrs, Hra, Hdec, Htr, Hrad. reflexivity.
Qed.

(** X14: a sky circle constructed without [visual] is drawn with the
    caller's keywords, [transform] and [radius] set over them. *)
Theorem init_then_to_mpl_patch (center : SkyCoord)
    (radius : Quantity.t AUnit) (meta : option pyval) ax kwargs h c h'
    val ra_deg dec_deg transform radius_deg :
  CircleSkyRegion.init center radius meta None h = Ok (c, h') ->
  import_mpatches = Ret tt ->
  icrs center = Ret val ->
  q_to (ra val) u_deg = Ret ra_deg ->
  q_to (dec val) u_deg = Ret dec_deg ->
  get_transform ax "icrs" = Ret transform ->
  q_to radius u_deg = Ret radius_deg ->
  Mpl.to_mpl_patch c ax kwargs h'
  = call (Circle (Quantity.value ra_deg, Quantity.value dec_deg)
            (<["radius" := KwPy (PyFloat (Quantity.value radius_deg))]>
               (<["transform" := KwTransform transform]> kwargs))) h'.
Proof.
  intros Hinit Himp Hicrs Hra Hdec Htr Hrad.
  destruct (sky_init_spec h center radius meta None)
    as (m & v & h1 & h2 & Hinit' & _ & _ & _ & (Hfalsy & _) & _).
  rewrite Hinit' in Hinit. injection Hinit as <- <-.
  destruct (Hfalsy eq_refl) as (a & -> & _ & Ha).
  rewrite (to_mpl_patch_calls _ ax kwargs h2
             val ra_deg dec_deg transform radius_deg) by assumption.
  unfold bind. cbn [CircleSkyRegion.visual].
  rewrite (items_dict h2 a ∅ Ha).
  rewrite patch_kwargs_union, fmap_empty, (right_id_L ∅ (∪)).
  reflexivity.
Qed.

(** X15: a sky circle whose radius does not convert to degrees, as one
    given in pixels, is never drawn. *)
Theorem to_mpl_patch_needs_angle self ax kwargs h cls patch h' :
  unit_to (Quantity.unit (CircleSkyRegion.radius self)) u_deg = Throw cls ->
  Mpl.to_mpl_patch self ax kwargs h <> Ok (patch, h').
Proof.
  intros Hto.
  assert (Hq : q_to (CircleSkyRegion.radius self) u_deg = Throw cls)
    by (unfold q_to; rewrite Hto; reflexivity).
  unfold Mpl.to_mpl_patch, bind. rewrite Hq.
  repeat (next_call; try discriminate).
Qed.

End ToMplPatch.

(** ** [to_mpl_patch] at the test double *)

Lemma sky_init_omitted `{Collaborators} (h : heap) (center : SkyCoord)
    (radius : Quantity.t AUnit) :
  let a1 := fresh (dom h) in
  let h1 : heap := <[a1 := ODict ∅]> h in
  let a2 := fresh (dom h1) in
  CircleSkyRegion.init center radius None None h
  = Ok (CircleSkyRegion.mk center radius (PyRef a1) (PyRef a2),
        <[a2 := ODict ∅]> h1).
Proof. reflexivity. Qed.

Lemma init_then_to_mpl_patch_witness :
  exists c h',
    @CircleSkyRegion.init Stub.collaborators
      (Stub.mk_sky 1 2 "galactic") (Quantity.mk 2 Stub.Deg) None None
      Stub.store0 = Ok (c, h') /\
    @Mpl.to_mpl_patch Stub.collaborators StubRender.rendering
      c tt {[ "color" := KwPy (PyStr "blue") ]} h'
    = Ok (StubRender.mk_patch (1 * 1, 2 * 1)
            (<["radius" := KwPy (PyFloat (2 * 1))]>
               (<["transform" := KwTransform "icrs"]>
                  {[ "color" := KwPy (PyStr "blue") ]})),
          h').
Proof.
  eexists _, _. split; [apply sky_init_omitted |].
  exact (@init_then_to_mpl_patch Stub.collaborators StubRender.rendering
           (Stub.mk_sky 1 2 "galactic") (Quantity.mk 2 Stub.Deg) None
           tt {[ "color" := KwPy (PyStr "blue") ]} Stub.store0 _ _
           (Stub.mk_sky 1 2 "icrs")
           (Quantity.mk (1 * 1) Stub.Deg) (Quantity.mk (2 * 1) Stub.Deg)
           "icrs" (Quantity.mk (2 * 1) Stub.Deg)
           (sky_init_omitted Stub.store0 _ _)
           eq_refl eq_refl eq_refl eq_refl eq_refl eq_refl).
Defined.

Lemma to_mpl_patch_needs_angle_witness :
  @Mpl.to_mpl_patch Stub.collaborators StubRender.rendering
    Stub.circle_pix tt ∅ Stub.store0
  <> Ok (StubRender.mk_patch (0, 0) ∅, Stub.store0).
Proof.
  exact (@to_mpl_patch_needs_angle Stub.collaborators StubRender.rendering
           Stub.circle_pix tt ∅ Stub.store0 "UnitConversionError"
           (StubRender.mk_patch (0, 0) ∅) Stub.store0 eq_refl).
Defined.

(** ** The angle path of [to_pixel], lines 124 to 128 *)

Section ToPixelAnglePath.
Context `{Collaborators}.
Implicit Types (self : CircleSkyRegion.t) (mywcs : WCS) (h : heap).
Implicit Types (mode tolerance : option pyval).

(** For a radius that is an angle the first thing after the projection
    of the center is the read of [mywcs.celestialwcs.crval]; what it
    raises is what [to_pixel] raises. *)
Lemma to_pixel_crval_raises self mywcs mode tolerance h
    wcsframe center_in_wcsframe xpix ypix cls :
  arg (PyStr "local") mode = PyStr "local" ->
  arg PyNone tolerance = PyNone ->
  _wcs_to_celestial_frame_builtin mywcs = Ret wcsframe ->
  transform_to (CircleSkyRegion.center self) wcsframe
    = Ret center_in_wcsframe ->
  wcs_world2pix mywcs (spherical_lon center_in_wcsframe)
                (spherical_lat center_in_wcsframe) 0 = Ret (xpix, ypix) ->
  physical_type (Quantity.unit (CircleSkyRegion.radius self)) = "angle" ->
  celestialwcs_crval mywcs = Throw cls ->
  CircleSkyRegion.to_pixel self mywcs mode tolerance h
  = Raise (Propagated cls).
Proof.
  intros Hm Ht Hf Htr Hw Hty Hcr.
  unfold CircleSkyRegion.to_pixel. rewrite Hm, Ht.
  cbn [ne_str is_not_None]. rewrite String.eqb_refl. cbn [negb].
  unfold bind, call. rewrite Hf, Htr, Hw, Hty, String.eqb_refl, Hcr.
  reflexivity.
Qed.

(** Where the helper does not answer for a module, [to_pixel] returns
    for no circle, WCS, mode or tolerance at all. *)
Lemma to_pixel_needs_helper_on_module self mywcs mode tolerance h p h' :
  (forall pos, exists cls,
     skycoord_to_pixel_scale_angle pos WcsModule = Throw cls) ->
  CircleSkyRegion.to_pixel self mywcs mode tolerance h <> Ok (p, h').
Proof.
  intros Hrefuses Hret.
  apply to_pixel_returns_inv in Hret
    as (crval & cunit & cpos & xc & yc & scale & angle & inpix
        & _ & _ & _ & Hsc & _).
  destruct (Hrefuses cpos) as (cls & Hthrow).
  rewrite Hthrow in Hsc. discriminate.
Qed.

End ToPixelAnglePath.

(** C2, evaluated: for a circle of two degrees around (1, 2) and a WCS
    that answers as astropy does, [to_pixel] raises the AttributeError
    of [mywcs.celestialwcs] at line 124; it returns no pixel circle, and
    no radius is scaled. *)
Theorem to_pixel_angle_radius_raises :
  CircleSkyRegion.to_pixel StubAstropy.circle_deg Stub.wcs0 None None
                           Stub.store0
  = Raise (Propagated "AttributeError").
Proof.
  exact (to_pixel_crval_raises
           StubAstropy.circle_deg Stub.wcs0 None None Stub.store0
           "icrs" (Stub.mk_sky 1 2 "icrs") ((1 - 0) * 10) ((2 - 0) * 10)
           "AttributeError"
           eq_refl eq_refl eq_refl eq_refl eq_refl eq_refl eq_refl).
Qed.

(** With this double no call of [to_pixel] returns. *)
Example to_pixel_never_returns_as_astropy
    (self : @CircleSkyRegion.t StubAstropy.collaborators)
    (mywcs : Stub.stub_wcs) (mode tolerance : option pyval) (h : heap)
    (p : CirclePixelRegion.t) (h' : heap) :
  CircleSkyRegion.to_pixel self mywcs mode tolerance h <> Ok (p, h').
Proof.
  apply to_pixel_needs_helper_on_module.
  intros pos. exists "AttributeError". reflexivity.
Qed.

(** Where a double supplies the three attributes, as [Stub] does, the
    scale is the one the helper reports for the reference value of the
    WCS: for [Stub.circle_deg] the radius is 2 * 10, while the helper
    reports 11 pixels per degree at the center of the circle. *)
Example to_pixel_scale_taken_at_crval :
  exists p h' xc yc angle,
    CircleSkyRegion.to_pixel Stub.circle_deg Stub.wcs0 None None Stub.store0
      = Ok (p, h') /\
    CirclePixelRegion.radius p = 20 /\
    @skycoord_to_pixel_scale_angle Stub.collaborators
      (CircleSkyRegion.center Stub.circle_deg) (WcsObject Stub.wcs0)
      = Ret (xc, yc, Quantity.mk (10 + 1) Stub.PixelPerDeg, angle).
Proof.
  destruct (pixel_init_spec Stub.store0 (PixCoord.mk (0 * 10) (0 * 10))
              ((10 + 0) * 2 * 1) None None)
    as (m & v & h1 & h' & Hinit & _).
  eexists _, h', _, _, _.
  split; [rewrite stub_to_pixel_deg; exact Hinit |].
  split; [cbn [CirclePixelRegion.radius]; lra | reflexivity].
Qed.

(** ** Doubles and the numbers they stand for *)

Lemma digits2_pos_bounds (m : positive) :
  (2 ^ (Z.pos (digits2_pos m) - 1) <= Z.pos m < 2 ^ Z.pos (digits2_pos m))%Z.
Proof.
  induction m as [m IH | m IH |]; cbn [digits2_pos].
  - rewrite Pos2Z.inj_succ.
    replace (Z.succ (Z.pos (digits2_pos m)) - 1)%Z
      with (Z.succ (Z.pos (digits2_pos m) - 1))%Z by lia.
    rewrite !Z.pow_succ_r by lia. lia.
  - rewrite Pos2Z.inj_succ.
    replace (Z.succ (Z.pos (digits2_pos m)) - 1)%Z
      with (Z.succ (Z.pos (digits2_pos m) - 1))%Z by lia.
    rewrite !Z.pow_succ_r by lia. lia.
  - cbn. lia.
Qed.

(** A canonical mantissa has at most 53 digits, and exactly 53 above
    the least exponent. *)
Lemma bounded_digits (m : positive) (e : Z) :
  bounded prec emax m e = true ->
  (-1074 <= e)%Z /\
  (Z.pos m < 2 ^ 53)%Z /\
  ((-1074 < e)%Z -> (2 ^ 52 <= Z.pos m)%Z).
Proof.
  unfold bounded, canonical_mantissa, fexp, SpecFloat.emin.
  intros Hb. apply andb_prop in Hb as [Hc _]. apply Z.eqb_eq in Hc.
  pose proof (digits2_pos_bounds m) as [Hlo Hhi].
  set (d := Z.pos (digits2_pos m)) in *.
  change prec with 53%Z in Hc. change emax with 1024%Z in Hc.
  split; [lia |]. split.
  - assert (d <= 53)%Z by lia.
    eapply Z.lt_le_trans; [exact Hhi |]. apply Z.pow_le_mono_r; lia.
  - intros Hmin. assert (d = 53)%Z by lia. subst d.
    replace 52%Z with (Z.pos (digits2_pos m) - 1)%Z by lia. exact Hlo.
Qed.

Lemma two_le_powerRZ (k : Z) : (1 <= k)%Z -> 2 <= powerRZ 2 k.
Proof.
  intros Hk. destruct k as [| p | p]; try lia. cbn [powerRZ].
  apply Rle_trans with (2 ^ 1); [simpl; lra |].
  apply Rle_pow; [lra |]. pose proof (Pos2Nat.is_pos p). lia.
Qed.

Lemma finite_lt_by_exponent (m1 m2 : positive) (e1 e2 : Z) :
  bounded prec emax m1 e1 = true -> bounded prec emax m2 e2 = true ->
  (e1 < e2)%Z ->
  IZR (Z.pos m1) * powerRZ 2 e1 < IZR (Z.pos m2) * powerRZ 2 e2.
Proof.
  intros H1 H2 He.
  destruct (bounded_digits m1 e1 H1) as (Hmin1 & Hhi1 & _).
  destruct (bounded_digits m2 e2 H2) as (_ & _ & Hlo2).
  specialize (Hlo2 ltac:(lia)).
  assert (Hm : IZR (Z.pos m1) < 2 * IZR (Z.pos m2)).
  { rewrite <- mult_IZR. apply IZR_lt.
    change (2 ^ 53)%Z with 9007199254740992%Z in Hhi1.
    change (2 ^ 52)%Z with 4503599627370496%Z in Hlo2. lia. }
  replace e2 with (e1 + (e2 - e1))%Z by lia.
  rewrite powerRZ_add by lra.
  assert (Hp : 0 < powerRZ 2 e1) by (apply powerRZ_lt; lra).
  assert (Hq : 2 <= powerRZ 2 (e2 - e1)).
  { apply two_le_powerRZ. lia. }
  assert (Hpos2 : 0 < IZR (Z.pos m2)) by (apply IZR_lt; lia).
  apply Rlt_le_trans with (2 * IZR (Z.pos m2) * powerRZ 2 e1).
  - apply Rmult_lt_compat_r; assumption.
  - assert (Ha : 0 < IZR (Z.pos m2) * powerRZ 2 e1)
      by (apply Rmult_lt_0_compat; assumption).
    replace (IZR (Z.pos m2) * (powerRZ 2 e1 * powerRZ 2 (e2 - e1)))
      with (IZR (Z.pos m2) * powerRZ 2 e1 * powerRZ 2 (e2 - e1)) by ring.
    replace (2 * IZR (Z.pos m2) * powerRZ 2 e1)
      with (IZR (Z.pos m2) * powerRZ 2 e1 * 2) by ring.
    apply Rmult_le_compat_l; lra.
Qed.

Lemma finite_lt_by_mantissa (m1 m2 : positive) (e : Z) :
  IZR (Z.pos m1) * powerRZ 2 e < IZR (Z.pos m2) * powerRZ 2 e
  <-> (m1 < m2)%positive.
Proof.
  assert (Hp : 0 < powerRZ 2 e) by (apply powerRZ_lt; lra).
  split.
  - intros Hlt. apply Rmult_lt_reg_r in Hlt; [| exact Hp].
    apply lt_IZR in Hlt. lia.
  - intros Hlt. apply Rmult_lt_compat_r; [exact Hp |].
    apply IZR_lt. lia.
Qed.

(** Order of the positive finite doubles. *)
Lemma finite_pos_compare (m1 m2 : positive) (e1 e2 : Z) :
  bounded prec emax m1 e1 = true -> bounded prec emax m2 e2 = true ->
  let v1 := IZR (Z.pos m1) * powerRZ 2 e1 in
  let v2 := IZR (Z.pos m2) * powerRZ 2 e2 in
  match (e1 ?= e2)%Z with
  | Lt => Lt
  | Gt => Gt
  | Eq => Pos.compare_cont Eq m1 m2
  end
  = (if Rlt_dec v1 v2 then Lt else if Rlt_dec v2 v1 then Gt else Eq).
Proof.
  intros H1 H2 v1 v2.
  destruct (Z.compare_spec e1 e2) as [He | He | He].
  - subst e2. change (Pos.compare_cont Eq m1 m2) with (m1 ?= m2)%positive.
    unfold v1, v2.
    destruct (Pos.compare_spec m1 m2) as [Hm | Hm | Hm].
    + subst m2. destruct (Rlt_dec _ _) as [Hlt | _]; [lra | reflexivity].
    + apply (finite_lt_by_mantissa m1 m2 e1) in Hm.
      destruct (Rlt_dec _ _); [reflexivity | contradiction].
    + apply (finite_lt_by_mantissa m2 m1 e1) in Hm.
      destruct (Rlt_dec _ _) as [Hlt | _]; [lra |].
      destruct (Rlt_dec _ _); [reflexivity | contradiction].
  - pose proof (finite_lt_by_exponent m1 m2 e1 e2 H1 H2 He) as Hlt.
    fold v1 v2 in Hlt. destruct (Rlt_dec v1 v2); [reflexivity | contradiction].
  - pose proof (finite_lt_by_exponent m2 m1 e2 e1 H2 H1 He) as Hlt.
    fold v1 v2 in Hlt. destruct (Rlt_dec v1 v2) as [Hc | _]; [lra |].
    destruct (Rlt_dec v2 v1); [reflexivity | contradiction].
Qed.

(** On finite doubles the comparison of the standard is the order of
    the numbers they stand for. *)
Lemma SFltb_exact (x y : spec_float) (a b : R) :
  valid_binary x = true -> valid_binary y = true ->
  Float64.sf_exact x = Some a -> Float64.sf_exact y = Some b ->
  (SFltb x y = true <-> a < b).
Proof.
  intros Hx Hy Ha Hb. unfold SFltb.
  destruct x as [sx | sx | | sx mx ex], y as [sy | sy | | sy my ey];
    try discriminate; cbn in Ha, Hb, Hx, Hy;
    injection Ha as <-; injection Hb as <-; cbn [SFcompare].
  - split; [discriminate | lra].
  - assert (Hp : 0 < powerRZ 2 ey) by (apply powerRZ_lt; lra).
    destruct sy.
    + assert (IZR (Z.neg my) < 0) by (apply IZR_lt; lia).
      split; [discriminate | nra].
    + assert (0 < IZR (Z.pos my)) by (apply IZR_lt; lia).
      split; [intros _; nra | reflexivity].
  - assert (Hp : 0 < powerRZ 2 ex) by (apply powerRZ_lt; lra).
    destruct sx.
    + assert (IZR (Z.neg mx) < 0) by (apply IZR_lt; lia).
      split; [intros _; nra | reflexivity].
    + assert (0 < IZR (Z.pos mx)) by (apply IZR_lt; lia).
      split; [discriminate | nra].
  - assert (Hpx : 0 < powerRZ 2 ex) by (apply powerRZ_lt; lra).
    assert (Hpy : 0 < powerRZ 2 ey) by (apply powerRZ_lt; lra).
    assert (Hmx : 0 < IZR (Z.pos mx)) by (apply IZR_lt; lia).
    assert (Hmy : 0 < IZR (Z.pos my)) by (apply IZR_lt; lia).
    assert (Hnx : IZR (Z.neg mx) = - IZR (Z.pos mx))
      by (rewrite <- opp_IZR; reflexivity).
    assert (Hny : IZR (Z.neg my) = - IZR (Z.pos my))
      by (rewrite <- opp_IZR; reflexivity).
    destruct sx, sy.
    + rewrite Hnx, Hny.
      pose proof (finite_pos_compare mx my ex ey Hx Hy) as Hc.
      cbv zeta in Hc.
      assert (Hopp :
        match (ex ?= ey)%Z with
        | Eq => CompOpp (Pos.compare_cont Eq mx my)
        | Lt => Gt
        | Gt => Lt
        end
        = CompOpp match (ex ?= ey)%Z with
                  | Eq => Pos.compare_cont Eq mx my
                  | Lt => Lt
                  | Gt => Gt
                  end)
        by (destruct (ex ?= ey)%Z; reflexivity).
      rewrite Hopp, Hc.
      destruct (Rlt_dec _ _) as [H1 | H1]; cbn [CompOpp].
      * split; [discriminate | nra].
      * destruct (Rlt_dec _ _) as [H2 | H2]; cbn [CompOpp].
        -- split; [intros _; nra | reflexivity].
        -- split; [discriminate | nra].
    + rewrite Hnx. split; [intros _; nra | reflexivity].
    + rewrite Hny. split; [discriminate | nra].
    + pose proof (finite_pos_compare mx my ex ey Hx Hy) as Hc.
      cbv zeta in Hc. rewrite Hc.
      destruct (Rlt_dec _ _) as [H1 | H1].
      * split; [intros _; exact H1 | reflexivity].
      * destruct (Rlt_dec _ _) as [H2 | H2];
          (split; [discriminate | intros; contradiction]).
Qed.

Lemma ltb_exact (x y : float) (a b : R) :
  Float64.exact x = Some a -> Float64.exact y = Some b ->
  ((x <? y)%float = true <-> a < b).
Proof.
  intros Ha Hb. rewrite FloatAxioms.ltb_spec.
  apply SFltb_exact; [apply Prim2SF_valid | apply Prim2SF_valid | | ];
    assumption.
Qed.

Lemma ltb_false_of_eqb (x y : float) :
  (x =? y)%float = true -> (x <? y)%float = false.
Proof.
  rewrite FloatAxioms.eqb_spec, FloatAxioms.ltb_spec. unfold SFeqb, SFltb.
  destruct (SFcompare (Prim2SF x) (Prim2SF y)) as [[| |] |];
    (reflexivity || discriminate).
Qed.

Lemma Prim2SF_nan (x : float) :
  PrimFloat.is_nan x = true -> Prim2SF x = S754_nan.
Proof. intros Hnan. unfold Prim2SF. rewrite Hnan. reflexivity. Qed.

Lemma ltb_false_of_nan (x y : float) :
  PrimFloat.is_nan x = true \/ PrimFloat.is_nan y = true ->
  (x <? y)%float = false.
Proof.
  rewrite FloatAxioms.ltb_spec. unfold SFltb.
  intros [Hnan | Hnan]; rewrite (Prim2SF_nan _ Hnan).
  - reflexivity.
  - destruct (Prim2SF x); reflexivity.
Qed.

Lemma powerRZ_2_le (k l : Z) : (k <= l)%Z -> powerRZ 2 k <= powerRZ 2 l.
Proof.
  intros Hkl. assert (Hk : 0 < powerRZ 2 k) by (apply powerRZ_lt; lra).
  destruct (Z.eq_dec k l) as [-> | Hne]; [lra |].
  replace l with (k + (l - k))%Z by lia.
  rewrite powerRZ_add by lra.
  pose proof (two_le_powerRZ (l - k) ltac:(lia)) as Hq.
  replace (powerRZ 2 k) with (powerRZ 2 k * 1) at 1 by ring.
  apply Rmult_le_compat_l; lra.
Qed.

(** ** [CirclePixelRegion.__contains__] on doubles *)

(** C5 (amended): [point in circle] is the comparison [d < radius] of
    the standard, where [d] is the double [np.hypot] returns for the two
    rounded coordinate differences.  When [d] and the radius are finite
    it is true exactly when the number [d] is strictly below the number
    [radius]; it is false when [d] equals the radius, and when [d] or
    the radius is NaN.  The store is not touched. *)
Theorem contains_double_open_disk `{Float64.Numeric}
    (self : Float64.CirclePixelRegion) (pixcoord : Float64.PixCoord)
    (h : heap) :
  let d :=
    Float64.np_hypot
      (Float64.x pixcoord - Float64.x (Float64.center self))%float
      (Float64.y pixcoord - Float64.y (Float64.center self))%float in
  let inside := (d <? Float64.radius self)%float in
  Float64.contains self pixcoord h = Ok (inside, h) /\
  (forall dv rv : R,
     Float64.exact d = Some dv ->
     Float64.exact (Float64.radius self) = Some rv ->
     (inside = true <-> dv < rv)) /\
  ((d =? Float64.radius self)%float = true -> inside = false) /\
  (PrimFloat.is_nan d = true \/ PrimFloat.is_nan (Float64.radius self) = true ->
   inside = false).
Proof.
  intros d inside. split; [reflexivity |]. split; [| split].
  - intros dv rv Hd Hr. apply ltb_exact; assumption.
  - apply ltb_false_of_eqb.
  - apply ltb_false_of_nan.
Qed.

(** The point (1, 0) and the circle of radius 1 around (2^-60, 0): the
    difference [1 - 2^-60] rounds to 1. *)
Lemma contains_near_origin :
  @Float64.contains StubNumeric.numeric
    StubNumeric.circle_near_origin StubNumeric.point_1_0 ∅
  = Ok (false, ∅).
Proof. vm_compute. reflexivity. Qed.

(** Whatever [np.hypot] is, if it returns 1.0 for the pair (1.0, 0.0)
    the sentence of the specification fails at that circle and point:
    the point is at distance [1 - 2^-60] from the center, below the
    radius 1, and the comparison is [1.0 < 1.0]. *)
Lemma open_disk_fails_by_rounding (N : Float64.Numeric) :
  Float64.np_hypot 1%float 0%float = 1%float ->
  ~ open_disk_as_specified N.
Proof.
  intros Hhypot Hspec.
  destruct (Hspec StubNumeric.circle_near_origin StubNumeric.point_1_0 ∅
              (IZR 4503599627370496 * powerRZ 2 (-112)) 0
              (IZR 4503599627370496 * powerRZ 2 (-52))
              (IZR 4503599627370496 * powerRZ 2 (-52)) 0
              eq_refl eq_refl eq_refl eq_refl eq_refl)
    as (b & Hb & Hiff).
  assert (Hout :
    Float64.contains StubNumeric.circle_near_origin StubNumeric.point_1_0 ∅
    = Ok (false, ∅)).
  { unfold Float64.contains, ret.
    change (Float64.x StubNumeric.point_1_0
            - Float64.x (Float64.center StubNumeric.circle_near_origin))%float
      with 1%float.
    change (Float64.y StubNumeric.point_1_0
            - Float64.y (Float64.center StubNumeric.circle_near_origin))%float
      with 0%float.
    rewrite Hhypot. reflexivity. }
  rewrite Hout in Hb. injection Hb as <-.
  assert (Hfalse : false = true); [| discriminate].
  apply Hiff.
  set (A := IZR 4503599627370496).
  assert (HA : 0 < A) by (apply IZR_lt; lia).
  assert (Hlo : 0 < powerRZ 2 (-112)) by (apply powerRZ_lt; lra).
  assert (Hle : powerRZ 2 (-112) <= powerRZ 2 (-52))
    by (apply powerRZ_2_le; lia).
  assert (Hcx : 0 < A * powerRZ 2 (-112)) by (apply Rmult_lt_0_compat; lra).
  assert (Hpx : A * powerRZ 2 (-112) <= A * powerRZ 2 (-52))
    by (apply Rmult_le_compat_l; lra).
  replace ((A * powerRZ 2 (-52) - A * powerRZ 2 (-112))² + (0 - 0)²)
    with ((A * powerRZ 2 (-52) - A * powerRZ 2 (-112))²)
    by (unfold Rsqr; ring).
  rewrite sqrt_Rsqr by lra. lra.
Qed.

(** C5, as the specification words it, fails: the point (1, 0) is at
    distance [1 - 2^-60] from the center (2^-60, 0), below the radius 1,
    and is reported outside. *)
Lemma open_disk_refuted : ~ open_disk_as_specified StubNumeric.numeric.
Proof.
  apply open_disk_fails_by_rounding. vm_compute. reflexivity.
Qed.

(** ** [area] on doubles *)


(** The square of 2^600 is no double: [area] raises. *)
Lemma area_huge_raises :
  @Float64.area StubNumeric.numeric StubNumeric.circle_huge ∅
  = Raise (Propagated "OverflowError").
Proof. vm_compute. reflexivity. Qed.

(** The square of 2^-600 rounds to zero: [area] returns 0.0. *)
Lemma area_tiny_is_zero :
  @Float64.area StubNumeric.numeric StubNumeric.circle_tiny ∅
  = Ok (0%float, ∅).
Proof. vm_compute. reflexivity. Qed.



(** Nor is a returned area exact: for the radius 2^-600 it is 0.0,
    while the area of that disk is positive. *)
Example area_tiny_not_exact :
  exists a r,
    @Float64.area StubNumeric.numeric StubNumeric.circle_tiny ∅
      = Ok (a, ∅) /\
    Float64.exact (Float64.radius StubNumeric.circle_tiny) = Some r /\
    Float64.exact a = Some 0 /\
    0 < PI * r².
Proof.
  exists 0%float, (IZR 4503599627370496 * powerRZ 2 (-652)).
  split; [exact area_tiny_is_zero |]. split; [reflexivity |].
  split; [reflexivity |].
  assert (HA : 0 < IZR 4503599627370496) by (apply IZR_lt; lia).
  assert (Hp : 0 < powerRZ 2 (-652)) by (apply powerRZ_lt; lra).
  apply Rmult_lt_0_compat; [apply PI_RGT_0 |].
  apply Rsqr_pos_lt. apply Rgt_not_eq, Rmult_lt_0_compat; assumption.
Qed.

(** C5 (amended) at the circle of radius 2 around the origin and the
    point (1, 0): the computed distance 1 is below the radius. *)
Lemma contains_double_open_disk_witness :
  (StubNumeric.hypot (1 - 0) (0 - 0) <? 2)%float = true
  <-> IZR 4503599627370496 * powerRZ 2 (-52)
      < IZR 4503599627370496 * powerRZ 2 (-51).
Proof.
  exact (proj1 (proj2 (@contains_double_open_disk StubNumeric.numeric
                         (Float64.mk (Float64.mk_coord 0 0) 2)
                         (Float64.mk_coord 1 0) ∅))
           _ _ eq_refl eq_refl).
Defined.
